(** * Contact flow of the portfolio site

    A shallow embedding of the two programs that make up the contact flow:

    - [SendEmail]: the API route [pages/api/send-email.ts]
      (module-level initialisation of the Resend client and [handler]);
    - [Contact]: the form widget [components/Contact.tsx]
      ([onChangeHandler], [handleSubmit], [handleButtonClick]).

    Both run on a JavaScript engine, so the development starts with the part
    of the language they rely on: UTF-16 strings, the values [JSON.parse]
    can produce, truthiness, string conversion and exceptions ([JS]), and
    anchored regular expressions without back-references ([Regex]).

    The definitions come first; [Samples] holds concrete inputs; the
    properties follow in [JSFacts], [RegexFacts], [SendEmailSpec] and
    [ContactSpec]. Properties named C1 to C10 are those of the specification
    of the contact flow. *)

From Stdlib Require Import List NArith Bool String Ascii Lia.
Import ListNotations.

Set Implicit Arguments.

(* ===================================================================== *)
(** * JavaScript values *)
(* ===================================================================== *)

Module JS.

(** A string is a sequence of UTF-16 code units. *)
Definition char16 := N.
Definition str := list char16.

(** ASCII literals; every byte below 128 is its own code unit. *)
Definition lit (s : string) : str :=
  List.map N_of_ascii (list_ascii_of_string s).

(** The double quote, U+0022. *)
Definition dquote : char16 := 34%N.

(** Literals that contain double quotes are written with a backtick in
    their place; [tpl] puts the quotes back. None of the literals of the
    two programs contains a backtick. *)
Definition tpl (s : string) : str :=
  List.map (fun c => if N.eqb c 96 then dquote else c) (lit s).

Fixpoint str_eqb (a b : str) : bool :=
  match a, b with
  | [], [] => true
  | x :: a', y :: b' => N.eqb x y && str_eqb a' b'
  | _, _ => false
  end.

(** [s.startsWith(p)] *)
Fixpoint startsWith (s p : str) : bool :=
  match p, s with
  | [], _ => true
  | y :: p', x :: s' => N.eqb x y && startsWith s' p'
  | _ :: _, [] => false
  end.

(** [xs.includes(x)] on an array of strings. *)
Definition includes (xs : list str) (x : str) : bool :=
  existsb (str_eqb x) xs.

(** [s.replace(/\n/g, by)]: every line feed is replaced. *)
Fixpoint replace_newlines (s by_ : str) : str :=
  match s with
  | [] => []
  | c :: s' =>
      if N.eqb c 10 then by_ ++ replace_newlines s' by_
      else c :: replace_newlines s' by_
  end.

(** Thrown values: [Error] objects, of which the programs read [message]. *)
Record Error := mkError { err_name : str; err_message : str }.

Definition TypeError (msg : string) : Error :=
  mkError (lit "TypeError") (lit msg).

(** Computations that may throw. *)
Definition throws (A : Type) : Type := (Error + A)%type.

Definition ret {A} (a : A) : throws A := inr a.
Definition throw {A} (e : Error) : throws A := inl e.
Definition bind {A B} (c : throws A) (k : A -> throws B) : throws B :=
  match c with
  | inl e => inl e
  | inr a => k a
  end.

(** A number, kept by the two observations the programs make of one:
    whether it is zero (truthiness) and its decimal text (interpolation
    into a template). [JSON.parse] yields no NaN. *)
Record Number := mkNumber { num_is_zero : bool; num_text : str }.

#[local] Unset Elimination Schemes.

(** The values of type [any] that reach the programs: what a request body
    parser or [response.json()] produces, and [undefined] for an absent
    property. An object is the list of its own properties in insertion
    order. *)
Inductive Val :=
| Undefined
| Null
| Bool (b : bool)
| Num (n : Number)
| Str (s : str)
| Arr (items : list Val)
| Obj (props : list (str * Val)).

#[local] Set Elimination Schemes.

(** [!!v] *)
Definition truthy (v : Val) : bool :=
  match v with
  | Undefined | Null => false
  | Bool b => b
  | Num n => negb (num_is_zero n)
  | Str s => match s with [] => false | _ => true end
  | Arr _ | Obj _ => true
  end.

Definition truthy_str (s : str) : bool :=
  match s with [] => false | _ => true end.

Fixpoint own (props : list (str * Val)) (key : str) : option Val :=
  match props with
  | [] => None
  | (k, v) :: rest => if str_eqb k key then Some v else own rest key
  end.

(** [v.key] for a key that no built-in prototype defines: [email] and
    [message] of a request body once it is known to be neither [undefined]
    nor [null], and [message] of a parsed error response. Reading a
    property of [undefined] or [null] throws. *)
Definition get (v : Val) (key : string) : throws Val :=
  match v with
  | Undefined =>
      throw (TypeError ("Cannot read properties of undefined (reading '"
                        ++ key ++ "')"))
  | Null =>
      throw (TypeError ("Cannot read properties of null (reading '"
                        ++ key ++ "')"))
  | Obj props =>
      ret (match own props (lit key) with Some x => x | None => Undefined end)
  | Bool _ | Num _ | Str _ | Arr _ => ret Undefined
  end.

(** [`${v}`]: ToString. Arrays join their elements with commas, [null] and
    [undefined] elements giving the empty string; a plain object gives
    [[object Object]] unless an own [toString] property (never callable in
    parsed data) hides [Object.prototype.toString], in which case the
    conversion throws. *)
Fixpoint ToString (v : Val) : throws str :=
  match v with
  | Undefined => ret (lit "undefined")
  | Null => ret (lit "null")
  | Bool true => ret (lit "true")
  | Bool false => ret (lit "false")
  | Num n => ret (num_text n)
  | Str s => ret s
  | Arr items =>
      (fix join (l : list Val) : throws str :=
         match l with
         | [] => ret []
         | x :: rest =>
             bind (match x with
                   | Undefined | Null => ret []
                   | _ => ToString x
                   end)
                  (fun sx =>
                     match rest with
                     | [] => ret sx
                     | _ :: _ =>
                         bind (join rest)
                              (fun srest => ret (sx ++ lit "," ++ srest))
                     end)
         end) items
  | Obj props =>
      match own props (lit "toString") with
      | Some _ => throw (TypeError "Cannot convert object to primitive value")
      | None => ret (lit "[object Object]")
      end
  end.

(** [a || b] on strings. *)
Definition or_str (a : option str) (b : str) : str :=
  match a with
  | Some s => if truthy_str s then s else b
  | None => b
  end.

End JS.

Declare Scope js_scope.
Delimit Scope js_scope with js.
Notation "x <- c ;; k" := (JS.bind c (fun x => k))
  (at level 61, c at next level, right associativity) : js_scope.

(* ===================================================================== *)
(** * The mail dispatch endpoint, [pages/api/send-email.ts] *)
(* ===================================================================== *)

Module SendEmail.
Import JS.

(** ** Interfaces of the source and of its collaborators *)

Record ErrorResponse := { name : str; message : str }.

Record ResendData := { id : str }.

Record ResendEmailResponse :=
  { data : option ResendData; error : option ErrorResponse }.

(** The argument of [resend.emails.send]. [replyTo] is whatever the request
    body held under [email]. *)
Record EmailData :=
  { from : str; to : str; replyTo : Val; subject : str; html : str }.

(** The client object that [new Resend(key)] builds when it returns. *)
Record Resend := { key : str }.

(** The variables of [process.env] the module reads. *)
Record ProcessEnv :=
  { env_RESEND_API_KEY : option str;
    env_CONTACT_FORM_EMAIL : option str;
    env_NEXT_PUBLIC_API_URL : option str;
    env_NODE_ENV : option str }.

(** Of the request headers the handler reads [origin] only. *)
Record IncomingHttpHeaders := { origin : option str }.

Record NextApiRequest :=
  { method : option str; headers : IncomingHttpHeaders; body : Val }.

(** The response object: the headers set by [setHeader], the status, and
    what was sent: nothing yet, [end()] without a body, or [json(v)]. *)
Inductive Payload :=
| Pending
| Ended
| Json (v : Val).

Record NextApiResponse :=
  { res_headers : list (str * str); statusCode : N; payload : Payload }.

Definition new_response : NextApiResponse :=
  {| res_headers := []; statusCode := 200; payload := Pending |}.

Definition setHeader (h v : str) (res : NextApiResponse) : NextApiResponse :=
  {| res_headers :=
       filter (fun kv => negb (str_eqb (fst kv) h)) (res_headers res)
       ++ [(h, v)];
     statusCode := statusCode res;
     payload := payload res |}.

Definition status (code : N) (res : NextApiResponse) : NextApiResponse :=
  {| res_headers := res_headers res; statusCode := code;
     payload := payload res |}.

Definition json (v : Val) (res : NextApiResponse) : NextApiResponse :=
  {| res_headers := res_headers res; statusCode := statusCode res;
     payload := Json v |}.

Definition end_ (res : NextApiResponse) : NextApiResponse :=
  {| res_headers := res_headers res; statusCode := statusCode res;
     payload := Ended |}.

(** ** Effects of the handler

    Besides its response the handler has one effect, the calls of the
    provider's send operation. [act A] is a computation that has made the
    listed calls and then returned or thrown. *)
Definition act (A : Type) : Type := (list EmailData * throws A)%type.

Definition act_ret {A} (a : A) : act A := ([], inr a).

Definition act_bind {A B} (c : act A) (k : A -> act B) : act B :=
  match c with
  | (calls, inl e) => (calls, inl e)
  | (calls, inr a) => let (calls', r) := k a in (calls ++ calls', r)
  end.

Definition lift {A} (c : throws A) : act A := ([], c).

Declare Scope act_scope.
Delimit Scope act_scope with act.
Notation "x <- c ;; k" := (act_bind c (fun x => k))
  (at level 61, c at next level, right associativity) : act_scope.

(** U+1F4E8 and U+26A0 U+FE0F, the two symbols of the templates. *)
Definition incoming_envelope : str := [55357; 56552]%N.
Definition warning_sign : str := [9888; 65039]%N.

Section Route.

(** The environment of the process, and the two operations of the
    provider's library that the module uses: the constructor
    [new Resend(key)], which returns a client or throws, and the send
    operation, which resolves to a response or rejects. *)
Variable process_env : ProcessEnv.
Variable new_Resend : str -> throws Resend.
Variable emails_send : Resend -> EmailData -> throws ResendEmailResponse.

(** ** Module level *)

Definition RESEND_API_KEY : option str := env_RESEND_API_KEY process_env.
Definition CONTACT_FORM_EMAIL : option str :=
  env_CONTACT_FORM_EMAIL process_env.
Definition API_URL : str :=
  or_str (env_NEXT_PUBLIC_API_URL process_env) (lit "http://localhost:3000").
Definition IS_DEVELOPMENT : bool :=
  match env_NODE_ENV process_env with
  | Some v => str_eqb v (lit "development")
  | None => false
  end.

(** The body of the module-level [try]: the two checks of the key, then the
    constructor, which is inside the [try] as well. *)
Definition initialize : throws Resend :=
  match RESEND_API_KEY with
  | None => throw (mkError (lit "Error") (lit "RESEND_API_KEY is not defined"))
  | Some k =>
      if negb (truthy_str k) then
        throw (mkError (lit "Error") (lit "RESEND_API_KEY is not defined"))
      else if negb (startsWith k (lit "re_")) then
        throw (mkError (lit "Error")
                 (tpl "Invalid API key format. Must start with `re_`"))
      else new_Resend k
  end.

(** [let resend = null; try { ... resend = new Resend(...) } catch { }] *)
Definition resend : option Resend :=
  match initialize with
  | inr client => Some client
  | inl _ => None
  end.

(** ** The message *)

(** [message.replace(/\n/g, '<br>')] on a value of type [any]: only strings
    have a [replace] method. *)
Definition message_replace (message : Val) : throws str :=
  match message with
  | Str s => ret (replace_newlines s (lit "<br>"))
  | Undefined =>
      throw (TypeError "Cannot read properties of undefined (reading 'replace')")
  | Null =>
      throw (TypeError "Cannot read properties of null (reading 'replace')")
  | Bool _ | Num _ | Arr _ | Obj _ =>
      throw (TypeError "message.replace is not a function")
  end.

(** The [html] template, with its two interpolated values already
    converted. *)
Definition html_template (email_text message_html : str) : str :=
  lit "
        <!DOCTYPE html>
        <html>
          <head>
            <style>
              body { font-family: Arial, sans-serif; line-height: 1.6; color: #333; }
              .container { max-width: 600px; margin: 0 auto; padding: 20px; }
              .header { background-color: #1f2937; color: white; padding: 20px; border-radius: 8px; display: flex; align-items: center; gap: 15px; }
              .header svg { width: 32px; height: 32px; }
              .content { background-color: #f9fafb; padding: 20px; border-radius: 8px; margin-top: 20px; }
              .footer { text-align: center; margin-top: 20px; color: #6b7280; font-size: 0.875rem; }
              "
  ++ (if IS_DEVELOPMENT
      then lit ".dev-banner { background: #fde68a; color: #92400e; padding: 10px; text-align: center; margin-bottom: 20px; }"
      else [])
  ++ tpl "
            </style>
          </head>
          <body>
            <div class=`container`>
              "
  ++ (if IS_DEVELOPMENT
      then tpl "<div class=`dev-banner`>" ++ warning_sign
           ++ lit " This is a test email from development environment</div>"
      else [])
  ++ tpl "
              <div class=`header`>
                <svg xmlns=`http://www.w3.org/2000/svg` viewBox=`0 0 24 24` fill=`none` stroke=`currentColor` stroke-width=`2` stroke-linecap=`round` stroke-linejoin=`round` style=`color: #06b6d4;`>
                  <path d=`M4 4h16c1.1 0 2 .9 2 2v12c0 1.1-.9 2-2 2H4c-1.1 0-2-.9-2-2V6c0-1.1.9-2 2-2z`></path>
                  <polyline points=`22,6 12,13 2,6`></polyline>
                </svg>
                <h1 style=`margin: 0;`>New Message from Your Website</h1>
              </div>
              <div class=`content`>
                <p>Hello Romain,</p>
                <p>You've received a new message from your website contact form.</p>
                
                <h2 style=`color: #1f2937;`>Sender Details</h2>
                <p><strong>Email:</strong> "
  ++ email_text
  ++ tpl "</p>
                
                <h2 style=`color: #1f2937;`>Message</h2>
                <p style=`background: white; padding: 15px; border-radius: 4px; border: 1px solid #e5e7eb;`>
                  "
  ++ message_html
  ++ tpl "
                </p>
                
                <p style=`margin-top: 20px;`>
                  To reply, you can either:
                  <ul>
                    <li>Use the reply-to address set in this email</li>
                    <li>Click `Reply` in your email client</li>
                  </ul>
                </p>
              </div>
              <div class=`footer`>
                <p>This message was sent from the contact form on RomainBOBOE.com</p>
                "
  ++ (if IS_DEVELOPMENT
      then tpl "<p style=`color: #92400e;`>Note: In development mode, emails are only sent to verified addresses.</p>"
      else [])
  ++ lit "
              </div>
            </div>
          </body>
        </html>
      ".

(** [const emailData = { ... }]. The properties are evaluated in order;
    only the template can throw, at [${email}] or at [message.replace]. *)
Definition emailData (recipientEmail : str) (email message : Val)
  : throws EmailData :=
  (email_text <- ToString email ;;
   message_html <- message_replace message ;;
   ret {| from := if IS_DEVELOPMENT
                  then lit "Romain BOBOE <onboarding@resend.dev>"
                  else lit "Contact Form <hi@romainboboe.com>";
          to := if IS_DEVELOPMENT
                then lit "rboboe@gmail.com"
                else recipientEmail;
          replyTo := email;
          subject := (if IS_DEVELOPMENT then lit "[TEST] " else [])
                     ++ incoming_envelope
                     ++ lit " New Message from RomainBOBOE.com";
          html := html_template email_text message_html |})%js.

(** ** The handler *)

Definition method_is (req : NextApiRequest) (m : string) : bool :=
  match method req with
  | Some s => str_eqb s (lit m)
  | None => false
  end.

Definition field (k v : string) : str * Val := (lit k, Str (lit v)).

Definition not_initialized : Val :=
  Obj [ (lit "success", Bool false);
        field "message" "Email service not initialized";
        field "error" "Internal server error" ].

Definition failed_to_send (reason : str) : Val :=
  Obj [ (lit "success", Bool false);
        field "message" "Failed to send email";
        (lit "error", Str reason) ].

Definition sent_successfully (result : ResendEmailResponse) : Val :=
  Obj [ (lit "success", Bool true);
        field "message" "Email sent successfully";
        (lit "id", match data result with
                   | Some d => Str (id d)
                   | None => Undefined
                   end) ].

(** [const { email, message } = req.body]: destructuring [undefined] or
    [null] throws, naming the first property of the pattern; any other
    value is read like an object. *)
Definition destructure_body (b : Val) : throws (Val * Val) :=
  match b with
  | Undefined =>
      throw (TypeError
        "Cannot destructure property 'email' of 'req.body' as it is undefined.")
  | Null =>
      throw (TypeError
        "Cannot destructure property 'email' of 'req.body' as it is null.")
  | Bool _ | Num _ | Str _ | Arr _ | Obj _ =>
      (email <- get b "email" ;;
       message <- get b "message" ;;
       ret (email, message))%js
  end.

(** The body of the handler's [try]. *)
Definition try_block (client : Resend) (req : NextApiRequest)
    (res : NextApiResponse) : act NextApiResponse :=
  (fields <- lift (destructure_body (body req)) ;;
   let email := fst fields in
   let message := snd fields in
   if negb (truthy email) || negb (truthy message) then
     act_ret (json (Obj [ field "message" "Email and message are required" ])
                   (status 400 res))
   else
     match CONTACT_FORM_EMAIL with
     | Some recipientEmail =>
         if truthy_str recipientEmail then
           emailData <- lift (emailData recipientEmail email message) ;;
           result <- ([emailData], emails_send client emailData) ;;
           match error result with
           | Some e =>
               act_ret (json (failed_to_send (SendEmail.message e))
                             (status 500 res))
           | None =>
               act_ret (json (sent_successfully result) (status 200 res))
           end
         else
           act_ret (json (Obj [ field "message" "Email service configuration error";
                                field "details" "Recipient email is missing" ])
                         (status 500 res))
     | None =>
         act_ret (json (Obj [ field "message" "Email service configuration error";
                              field "details" "Recipient email is missing" ])
                       (status 500 res))
     end)%act.

Definition allowedOrigins : list str := [API_URL; lit "http://localhost:3000"].

(** The CORS block that opens the handler. *)
Definition cors (req : NextApiRequest) (res : NextApiResponse)
  : NextApiResponse :=
  let origin := or_str (origin (headers req)) [] in
  if IS_DEVELOPMENT || includes allowedOrigins origin then
    setHeader (lit "Access-Control-Allow-Headers") (lit "Content-Type")
      (setHeader (lit "Access-Control-Allow-Methods") (lit "POST, OPTIONS")
         (setHeader (lit "Access-Control-Allow-Origin") origin res))
  else res.

(** What the handler does with a POST request: the readiness check, then
    the [try] and its [catch]. *)
Definition process (req : NextApiRequest) (res : NextApiResponse)
  : list EmailData * NextApiResponse :=
  match resend with
  | None => ([], json not_initialized (status 500 res))
  | Some client =>
      match try_block client req res with
      | (calls, inr sent) => (calls, sent)
      | (calls, inl error) =>
          (calls, json (failed_to_send (err_message error)) (status 500 res))
      end
  end.

(** [export default async function handler(req, res)]: the provider calls it
    made and the response it sent. Console output is left out. *)
Definition handler (req : NextApiRequest) (res : NextApiResponse)
  : list EmailData * NextApiResponse :=
  let res := cors req res in
  if method_is req "OPTIONS" then ([], end_ (status 200 res))
  else if negb (method_is req "POST") then
    ([], json (Obj [ field "message" "Method not allowed" ]) (status 405 res))
  else process req res.

End Route.

(** [replies r code p]: the response went out with status [code] and
    payload [p]. *)
Definition replies (r : NextApiResponse) (code : N) (p : Payload) : Prop :=
  statusCode r = code /\ payload r = p.

End SendEmail.

(* ===================================================================== *)
(** * Regular expressions *)
(* ===================================================================== *)

(** The widget tests the address with one pattern, anchored at both ends,
    without flags, groups referred back to, or look-around. For such a
    pattern [s.match(r)] is non-null exactly when the whole of [s] belongs
    to the regular language of [r], so the pattern is embedded as a regular
    expression over code units and tested with derivatives. *)

Module Regex.
Import JS.

Inductive re :=
| Void
| Eps
| Class (negated : bool) (ranges : list (char16 * char16))
| Cat (a b : re)
| Alt (a b : re)
| Star (a : re).

Definition in_ranges (c : char16) (ranges : list (char16 * char16)) : bool :=
  existsb (fun r => N.leb (fst r) c && N.leb c (snd r)) ranges.

Definition accepts (negated : bool) (ranges : list (char16 * char16))
    (c : char16) : bool :=
  xorb negated (in_ranges c ranges).

(** The language of an expression. *)
Inductive matches : re -> str -> Prop :=
| m_eps : matches Eps []
| m_class negated ranges c :
    accepts negated ranges c = true -> matches (Class negated ranges) [c]
| m_cat a b s t : matches a s -> matches b t -> matches (Cat a b) (s ++ t)
| m_alt_l a b s : matches a s -> matches (Alt a b) s
| m_alt_r a b s : matches b s -> matches (Alt a b) s
| m_star_nil a : matches (Star a) []
| m_star_cons a s t :
    matches a s -> matches (Star a) t -> matches (Star a) (s ++ t).

Fixpoint nullable (r : re) : bool :=
  match r with
  | Void => false
  | Eps => true
  | Class _ _ => false
  | Cat a b => nullable a && nullable b
  | Alt a b => nullable a || nullable b
  | Star _ => true
  end.

(** Constructors that keep derivatives small. *)
Definition cat (a b : re) : re :=
  match a, b with
  | Void, _ => Void
  | _, Void => Void
  | Eps, _ => b
  | _, _ => Cat a b
  end.

Definition alt (a b : re) : re :=
  match a, b with
  | Void, _ => b
  | _, Void => a
  | _, _ => Alt a b
  end.

Fixpoint deriv (c : char16) (r : re) : re :=
  match r with
  | Void => Void
  | Eps => Void
  | Class negated ranges => if accepts negated ranges c then Eps else Void
  | Cat a b =>
      if nullable a then alt (cat (deriv c a) b) (deriv c b)
      else cat (deriv c a) b
  | Alt a b => alt (deriv c a) (deriv c b)
  | Star a => cat (deriv c a) (Star a)
  end.

(** [test r s]: does the whole of [s] match [r]? *)
Fixpoint test (r : re) (s : str) : bool :=
  match s with
  | [] => nullable r
  | c :: s' => test (deriv c r) s'
  end.

(** Derived forms: [c], [a+], [a{1,3}], [a{2,}]. *)
Definition chr (c : ascii) : re :=
  Class false [(N_of_ascii c, N_of_ascii c)].
Definition plus (a : re) : re := Cat a (Star a).
Definition one_to_three (a : re) : re :=
  Cat a (Alt Eps (Cat a (Alt Eps a))).
Definition at_least_two (a : re) : re := Cat a (Cat a (Star a)).

(** [\s]: white space and line terminators. *)
Definition white_space : list (char16 * char16) :=
  [ (9, 13); (32, 32); (160, 160); (5760, 5760); (8192, 8202);
    (8232, 8233); (8239, 8239); (8287, 8287); (12288, 12288);
    (65279, 65279) ]%N.

(** [.]: anything but a line terminator. *)
Definition dot : re :=
  Class true [ (10, 10); (13, 13); (8232, 8233) ]%N.

Definition code (c : ascii) : char16 * char16 := (N_of_ascii c, N_of_ascii c).

(** The negated class of the local part: any code unit except
    [< > ( ) [ ] \ . , ; : @], the double quote and [\s]. *)
Definition local_char : re :=
  Class true
    ([ code "<"; code ">"; code "("; code ")"; code "["; code "]";
       code "\"; code "."; code ","; code ";"; code ":" ]
     ++ white_space
     ++ [ code "@"; (dquote, dquote) ]).

(** [[0-9]], [[a-zA-Z\-0-9]], [[a-zA-Z]] *)
Definition digit : re := Class false [ (48, 57) ]%N.
Definition label_char : re :=
  Class false [ (97, 122); (65, 90); (45, 45); (48, 57) ]%N.
Definition letter : re := Class false [ (97, 122); (65, 90) ]%N.

(** The pattern of [handleSubmit], between [^] and [$]. With [L] for the
    negated class above, [Q] for the double quote, [D] for [[0-9]], [H] for
    [[a-zA-Z\-0-9]] and [A] for [[a-zA-Z]] it reads

      ( L+ ( \. L+ )* | Q .+ Q )  @
      ( \[ D{1,3} \. D{1,3} \. D{1,3} \. D{1,3} \] | ( H+ \. )+ A{2,} ) *)
Definition email_regex : re :=
  let quote := Class false [ (dquote, dquote) ] in
  let local :=
    Alt (Cat (plus local_char) (Star (Cat (chr ".") (plus local_char))))
        (Cat quote (Cat (plus dot) quote)) in
  let octet := one_to_three digit in
  let address :=
    Cat (chr "[")
      (Cat octet (Cat (chr ".") (Cat octet (Cat (chr ".")
        (Cat octet (Cat (chr ".") (Cat octet (chr "]")))))))) in
  let name := Cat (plus (Cat (plus label_char) (chr "."))) (at_least_two letter) in
  Cat local (Cat (chr "@") (Alt address name)).

End Regex.

(* ===================================================================== *)
(** * The form widget, [components/Contact.tsx] *)
(* ===================================================================== *)

Module Contact.
Import JS.

(** One entry of [formState]. [error] is a string or [null]. *)
Module Field.
Record t := { value : str; error : option str }.
End Field.

Record FormState := { email : Field.t; message : Field.t }.

(** The five [useState] cells of the component. *)
Record State :=
  { open : bool;
    success : option str;
    error : option str;
    loading : bool;
    formState : FormState }.

Definition setOpen (v : bool) (st : State) : State :=
  {| open := v; success := success st; error := error st;
     loading := loading st; formState := formState st |}.
Definition setSuccess (v : option str) (st : State) : State :=
  {| open := open st; success := v; error := error st;
     loading := loading st; formState := formState st |}.
Definition setError (v : option str) (st : State) : State :=
  {| open := open st; success := success st; error := v;
     loading := loading st; formState := formState st |}.
Definition setLoading (v : bool) (st : State) : State :=
  {| open := open st; success := success st; error := error st;
     loading := v; formState := formState st |}.
Definition setFormState (v : FormState) (st : State) : State :=
  {| open := open st; success := success st; error := error st;
     loading := loading st; formState := v |}.

(** The state of [useState] at mount. *)
Definition empty_form : FormState :=
  {| email := {| Field.value := []; Field.error := Some [] |};
     message := {| Field.value := []; Field.error := Some [] |} |}.

Definition initial : State :=
  {| open := false; success := Some []; error := Some [];
     loading := false; formState := empty_form |}.

(** The argument of [fetch]: the URL and the [init] object. [body] is the
    object handed to [JSON.stringify]. *)
Record Request :=
  { url : str; method : str; headers : list (str * str); body : Val }.

(** What [fetch] resolves to, as far as the widget looks at it:
    [response.ok], and [response.json()], which rejects when the body is
    not JSON. *)
Record Response := { ok : bool; json : throws Val }.

(** U+1F680, the symbol that ends the success message. *)
Definition rocket : str := [55357; 56960]%N.

Inductive FieldName := email_field | message_field.

(** How far [handleSubmit] gets before its first [await]: it returns after
    a failed rule, or calls [fetch]. *)
Inductive Started :=
| Aborted (st : State)
| Fetching (st : State) (request : Request).

Section Widget.

(** [String.prototype.toLowerCase] of the engine, and the two variables of
    [process.env] inlined at build time. *)
Variable toLowerCase : str -> str.
Variable NODE_ENV : option str.
Variable NEXT_PUBLIC_SITE_URL : option str.

(** [onChangeHandler(field, value)]: the field gets the value and a [null]
    error; the other field is kept. *)
Definition onChangeHandler (field : FieldName) (value : str) (st : State)
  : State :=
  let state := {| Field.value := value; Field.error := None |} in
  match field with
  | email_field =>
      setFormState {| email := state; message := message (formState st) |} st
  | message_field =>
      setFormState {| email := email (formState st); message := state |} st
  end.

(** [updatedState.email.error = e] and [updatedState.message.error = e].
    The assignment goes through the shallow copy to the field object that
    [formState] holds too; [setFormState] then installs a copy with the
    same two field objects. *)
Definition with_email_error (e : string) (f : FormState) : FormState :=
  {| email := {| Field.value := Field.value (email f);
                 Field.error := Some (lit e) |};
     message := message f |}.

Definition with_message_error (e : string) (f : FormState) : FormState :=
  {| email := email f;
     message := {| Field.value := Field.value (message f);
                   Field.error := Some (lit e) |} |}.

Definition baseUrl : str :=
  match NODE_ENV with
  | Some v =>
      if str_eqb v (lit "development") then lit "http://localhost:3000"
      else or_str NEXT_PUBLIC_SITE_URL []
  | None => or_str NEXT_PUBLIC_SITE_URL []
  end.

(** [handleSubmit] up to the call of [fetch]. *)
Definition handleSubmit_start (st : State) : Started :=
  let email := email (formState st) in
  let message := message (formState st) in
  let updatedState := formState st in
  if negb (truthy_str (Field.value email)) then
    Aborted (setFormState
               (with_email_error "Oops! Email cannot be empty." updatedState)
               st)
  else if negb (Regex.test Regex.email_regex
                  (toLowerCase (Field.value email))) then
    Aborted (setFormState
               (with_email_error "Please enter a valid email address"
                  updatedState)
               st)
  else if negb (truthy_str (Field.value message)) then
    Aborted (setFormState
               (with_message_error "Oops! Message cannot be empty."
                  updatedState)
               st)
  else
    Fetching
      (setSuccess None (setError None (setLoading true st)))
      {| url := baseUrl ++ lit "/api/send-email";
         method := lit "POST";
         headers := [ (lit "Content-Type", lit "application/json") ];
         body := Obj [ (lit "email", Str (Field.value email));
                       (lit "message", Str (Field.value message)) ] |}.

(** The body of the [try] once [fetch] has settled: it returns normally or
    throws. *)
Definition after_fetch (settled : throws Response) : throws unit :=
  (response <- settled ;;
   if negb (ok response) then
     errorData <- json response ;;
     reason <- get errorData "message" ;;
     text <- (if truthy reason then ToString reason
              else ret (lit "Failed to send message")) ;;
     throw (mkError (lit "Error") text)
   else
     data <- json response ;;
     ret tt)%js.

(** [handleSubmit] from the point where [fetch] settles: the rest of the
    [try], then [catch] and [finally]. *)
Definition handleSubmit_settle (settled : throws Response) (st : State)
  : State :=
  match after_fetch settled with
  | inr _ =>
      setLoading false
        (setFormState
           {| email := {| Field.value := []; Field.error := Some [] |};
              message := {| Field.value := []; Field.error := Some [] |} |}
           (setSuccess
              (Some (lit "Message sent successfully! I'll get back to you soon. "
                     ++ rocket))
              st))
  | inl err =>
      setLoading false
        (setError
           (Some (lit "Failed to send message. Please try again later."))
           st)
  end.

(** [handleSubmit] against a given network: the final state and the
    requests issued. *)
Definition handleSubmit (fetch : Request -> throws Response) (st : State)
  : State * list Request :=
  match handleSubmit_start st with
  | Aborted st' => (st', [])
  | Fetching st' request => (handleSubmit_settle (fetch request) st', [request])
  end.

(** [handleButtonClick] *)
Definition handleButtonClick (st : State) : State :=
  setSuccess (Some [])
    (setError (Some [])
       (setLoading false
          (setFormState empty_form (setOpen (negb (open st)) st)))).

End Widget.

End Contact.

(* ===================================================================== *)
(** * Sample inputs *)
(* ===================================================================== *)

(** Environments, providers, requests and form states on which the
    properties below are exercised. *)

Module Samples.
Import JS.

(** *** For the endpoint *)

Definition production : SendEmail.ProcessEnv :=
  {| SendEmail.env_RESEND_API_KEY := Some (lit "re_123");
     SendEmail.env_CONTACT_FORM_EMAIL := Some (lit "owner@example.com");
     SendEmail.env_NEXT_PUBLIC_API_URL := Some (lit "https://romainboboe.com");
     SendEmail.env_NODE_ENV := Some (lit "production") |}.

Definition development : SendEmail.ProcessEnv :=
  {| SendEmail.env_RESEND_API_KEY := Some (lit "re_123");
     SendEmail.env_CONTACT_FORM_EMAIL := Some (lit "owner@example.com");
     SendEmail.env_NEXT_PUBLIC_API_URL := None;
     SendEmail.env_NODE_ENV := Some (lit "development") |}.

(** A key that does not start with [re_]: the client is not created. *)
Definition malformed_key : SendEmail.ProcessEnv :=
  {| SendEmail.env_RESEND_API_KEY := Some (lit "sk_123");
     SendEmail.env_CONTACT_FORM_EMAIL := Some (lit "owner@example.com");
     SendEmail.env_NEXT_PUBLIC_API_URL := Some (lit "https://romainboboe.com");
     SendEmail.env_NODE_ENV := Some (lit "production") |}.

(** No recipient address is configured. *)
Definition no_recipient : SendEmail.ProcessEnv :=
  {| SendEmail.env_RESEND_API_KEY := Some (lit "re_123");
     SendEmail.env_CONTACT_FORM_EMAIL := None;
     SendEmail.env_NEXT_PUBLIC_API_URL := Some (lit "https://romainboboe.com");
     SendEmail.env_NODE_ENV := Some (lit "production") |}.

Definition client : SendEmail.Resend := {| SendEmail.key := lit "re_123" |}.

(** A constructor in the manner of the provider's library, which puts the
    key into a request header: it throws on a key with a code unit above
    255, which no header can hold, and returns a client otherwise. *)
Definition connects (k : str) : throws SendEmail.Resend :=
  if forallb (fun c => N.leb c 255) k then inr {| SendEmail.key := k |}
  else inl (TypeError "Cannot convert argument to a ByteString").

(** A key that starts with [re_] and goes on with U+2603. *)
Definition snowman_key : SendEmail.ProcessEnv :=
  {| SendEmail.env_RESEND_API_KEY := Some (lit "re_" ++ [9731%N]);
     SendEmail.env_CONTACT_FORM_EMAIL := Some (lit "owner@example.com");
     SendEmail.env_NEXT_PUBLIC_API_URL := Some (lit "https://romainboboe.com");
     SendEmail.env_NODE_ENV := Some (lit "production") |}.

Definition delivers (_ : SendEmail.Resend) (_ : SendEmail.EmailData)
  : throws SendEmail.ResendEmailResponse :=
  inr {| SendEmail.data := Some {| SendEmail.id := lit "abc123" |};
         SendEmail.error := None |}.

Definition refuses (_ : SendEmail.Resend) (_ : SendEmail.EmailData)
  : throws SendEmail.ResendEmailResponse :=
  inr {| SendEmail.data := None;
         SendEmail.error :=
           Some {| SendEmail.name := lit "validation_error";
                   SendEmail.message := lit "Invalid sender" |} |}.

Definition unreachable (_ : SendEmail.Resend) (_ : SendEmail.EmailData)
  : throws SendEmail.ResendEmailResponse :=
  inl (mkError (lit "Error") (lit "socket hang up")).

Definition request (m : string) (o : option str) (b : Val)
  : SendEmail.NextApiRequest :=
  {| SendEmail.method := Some (lit m);
     SendEmail.headers := {| SendEmail.origin := o |};
     SendEmail.body := b |}.

(** [{email: "a@b.com", message: "hi"}] *)
Definition hi : Val :=
  Obj [ (lit "email", Str (lit "a@b.com")); (lit "message", Str (lit "hi")) ].

(** [{email: "a@b.com"}] *)
Definition no_message : Val := Obj [ (lit "email", Str (lit "a@b.com")) ].

(** [{message: 42}] *)
Definition forty_two : Number := mkNumber false (lit "42").
Definition only_a_number : Val := Obj [ (lit "message", Num forty_two) ].

(** [{email: "a@b.com", message: 42}] *)
Definition number_message : Val :=
  Obj [ (lit "email", Str (lit "a@b.com")); (lit "message", Num forty_two) ].

(** The message composed for [hi] and the sample recipient. *)
Definition composed (env : SendEmail.ProcessEnv) : SendEmail.EmailData :=
  match SendEmail.emailData env (lit "owner@example.com")
          (Str (lit "a@b.com")) (Str (lit "hi")) with
  | inr d => d
  | inl _ => {| SendEmail.from := []; SendEmail.to := [];
                SendEmail.replyTo := Undefined;
                SendEmail.subject := []; SendEmail.html := [] |}
  end.

(** *** For the widget *)

(** [toLowerCase] on strings of ASCII characters. *)
Definition ascii_toLowerCase (s : str) : str :=
  List.map (fun c => if N.leb 65 c && N.leb c 90 then (c + 32)%N else c) s.

Definition filled (e m : str) : Contact.State :=
  {| Contact.open := true;
     Contact.success := Some [];
     Contact.error := Some [];
     Contact.loading := false;
     Contact.formState :=
       {| Contact.email := {| Contact.Field.value := e;
                              Contact.Field.error := None |};
          Contact.message := {| Contact.Field.value := m;
                                Contact.Field.error := None |} |} |}.

Definition blank : Contact.State := filled [] [].
Definition malformed : Contact.State := filled (lit "not-an-email") (lit "hi").
Definition no_text : Contact.State := filled (lit "A@b.com") [].
Definition complete : Contact.State := filled (lit "a@b.com") (lit "hi").

(** The request that the widget issues for [a@b.com] and [hi] when the site
    is deployed at https://romainboboe.com. *)
Definition posted : Contact.Request :=
  {| Contact.url := lit "https://romainboboe.com/api/send-email";
     Contact.method := lit "POST";
     Contact.headers := [ (lit "Content-Type", lit "application/json") ];
     Contact.body := hi |}.

(** The endpoint answers 200 with its JSON body. *)
Definition accepted (_ : Contact.Request) : throws Contact.Response :=
  inr {| Contact.ok := true;
         Contact.json :=
           inr (Obj [ (lit "success", Bool true);
                      (lit "message", Str (lit "Email sent successfully"));
                      (lit "id", Str (lit "abc123")) ]) |}.

(** The endpoint answers 500 with its JSON body. *)
Definition rejected (_ : Contact.Request) : throws Contact.Response :=
  inr {| Contact.ok := false;
         Contact.json :=
           inr (Obj [ (lit "success", Bool false);
                      (lit "message", Str (lit "Failed to send email"));
                      (lit "error", Str (lit "Invalid sender")) ]) |}.

(** The request never completes. *)
Definition offline (_ : Contact.Request) : throws Contact.Response :=
  inl (TypeError "Failed to fetch").

(** A 200 response whose body is a page of HTML, not JSON. *)
Definition html_page (_ : Contact.Request) : throws Contact.Response :=
  inr {| Contact.ok := true;
         Contact.json :=
           inl (mkError (lit "SyntaxError")
                  (lit "Unexpected token '<', is not valid JSON")) |}.

End Samples.

(* ===================================================================== *)
(** * The widget on screen and over time *)
(* ===================================================================== *)

(** What the component returns, and the component driven by a sequence of
    user events. *)

Module Session.
Import JS Contact.

(** [{v && ...}] for a string or [null]: something is rendered only for a
    non-empty string. *)
Definition shown (v : option str) : option str :=
  match v with
  | Some (c :: s) => Some (c :: s)
  | Some [] => None
  | None => None
  end.

(** The parts of the rendered panel that depend on the state: the two
    inputs, the error line under each, the label of the submit button and
    the two banners. *)
Record Panel :=
  { email_input : str;
    email_error : option str;
    message_input : str;
    message_error : option str;
    submit_label : str;
    success_banner : option str;
    error_banner : option str }.

(** The component's [return]: the panel is there only when [open]; the
    round button that calls [handleButtonClick] is always there. *)
Definition render (st : State) : option Panel :=
  if open st then
    Some {| email_input := Field.value (email (formState st));
            email_error := shown (Field.error (email (formState st)));
            message_input := Field.value (message (formState st));
            message_error := shown (Field.error (message (formState st)));
            submit_label := if loading st then lit "Submitting..."
                            else lit "Submit";
            success_banner := shown (success st);
            error_banner := shown (error st) |}
  else None.

(** A user event: typing into a field, pressing the submit button (with
    the way the network answers the request, should one be issued), and
    pressing the round button. *)
Inductive Event :=
| Change (field : FieldName) (value : str)
| Submit (fetch : Request -> throws Response)
| Click.

Section Widget.

Variable toLowerCase : str -> str.
Variable NODE_ENV : option str.
Variable NEXT_PUBLIC_SITE_URL : option str.

(** One event, handled to its end: a submission has settled before the
    next event arrives. *)
Definition step (st : State) (e : Event) : State :=
  match e with
  | Change field value => onChangeHandler field value st
  | Submit fetch =>
      fst (handleSubmit toLowerCase NODE_ENV NEXT_PUBLIC_SITE_URL fetch st)
  | Click => handleButtonClick st
  end.

Definition run (events : list Event) (st : State) : State :=
  fold_left step events st.

(** The error line of a field tells the truth about the value now in the
    field: it is absent or empty, or it is the message of the rule that
    this value fails. *)
Definition errors_describe_values (f : FormState) : Prop :=
  match Field.error (email f) with
  | None => True
  | Some t =>
      t = []
      \/ (t = lit "Oops! Email cannot be empty."
          /\ Field.value (email f) = [])
      \/ (t = lit "Please enter a valid email address"
          /\ Field.value (email f) <> []
          /\ Regex.test Regex.email_regex
               (toLowerCase (Field.value (email f))) = false)
  end
  /\ match Field.error (message f) with
     | None => True
     | Some t =>
         t = []
         \/ (t = lit "Oops! Message cannot be empty."
             /\ Field.value (message f) = [])
     end.

(** Between events nothing is loading, and the banners are in one of three
    configurations: both empty, as at mount and after a click; the failure
    message alone; the success message alone. *)
Definition at_rest (st : State) : Prop :=
  loading st = false
  /\ ((success st = Some [] /\ error st = Some [])
      \/ (success st = None
          /\ error st
             = Some (lit "Failed to send message. Please try again later."))
      \/ (success st
          = Some (lit "Message sent successfully! I'll get back to you soon. "
                  ++ rocket)
          /\ error st = None)).

End Widget.

End Session.

(* ===================================================================== *)
(** * The widget in front of the endpoint *)
(* ===================================================================== *)

(** The transport between the two programs, for a widget served from the
    origin of the endpoint (the browser then lets the response through
    whatever its CORS headers): the request body is serialized by
    [JSON.stringify] and parsed by the body parser of the route, the
    response body is serialized by [res.json] and parsed by
    [response.json()]. *)

Module Wire.
Import JS.

(** [JSON.parse(JSON.stringify(v))]: a property whose value is [undefined]
    is left out, an [undefined] array element becomes [null]. *)
Fixpoint reparsed (v : Val) : Val :=
  match v with
  | Arr items =>
      Arr ((fix each (l : list Val) : list Val :=
              match l with
              | [] => []
              | Undefined :: rest => Null :: each rest
              | x :: rest => reparsed x :: each rest
              end) items)
  | Obj props =>
      Obj ((fix each (l : list (str * Val)) : list (str * Val) :=
              match l with
              | [] => []
              | (_, Undefined) :: rest => each rest
              | (k, x) :: rest => (k, reparsed x) :: each rest
              end) props)
  | Undefined | Null | Bool _ | Num _ | Str _ => v
  end.

(** The request as the handler receives it. *)
Definition received (o : option str) (request : Contact.Request)
  : SendEmail.NextApiRequest :=
  {| SendEmail.method := Some (Contact.method request);
     SendEmail.headers := {| SendEmail.origin := o |};
     SendEmail.body := reparsed (Contact.body request) |}.

(** The response as [fetch] resolves it: [ok] for a status from 200 to 299,
    and [json()] rejecting when no JSON body was sent. *)
Definition resolved (res : SendEmail.NextApiResponse) : Contact.Response :=
  {| Contact.ok := N.leb 200 (SendEmail.statusCode res)
                   && N.leb (SendEmail.statusCode res) 299;
     Contact.json :=
       match SendEmail.payload res with
       | SendEmail.Json v => inr (reparsed v)
       | SendEmail.Ended | SendEmail.Pending =>
           inl (mkError (lit "SyntaxError") (lit "Unexpected end of JSON input"))
       end |}.

(** [fetch], answered by the endpoint. *)
Definition endpoint (env : SendEmail.ProcessEnv)
    (new_Resend : str -> throws SendEmail.Resend)
    (emails_send : SendEmail.Resend -> SendEmail.EmailData
                   -> throws SendEmail.ResendEmailResponse)
    (o : option str) (request : Contact.Request) : throws Contact.Response :=
  inr (resolved
         (snd (SendEmail.handler env new_Resend emails_send
                 (received o request) SendEmail.new_response))).

End Wire.

(* ===================================================================== *)
(** * The sitemap script *)
(* ===================================================================== *)

(** The script that follows the configuration in [next.config.mjs] maps
    every page file to a route and a priority. What it does around that --
    listing the files, stamping the date, formatting and writing the result
    -- is left out. *)

Module Sitemap.
Import JS.

(** [s.replace(pat, by)] with a string pattern: the first occurrence is
    replaced, a string without one is returned as it is. *)
Fixpoint replace_first (s pat by_ : str) : str :=
  if startsWith s pat then by_ ++ skipn (List.length pat) s
  else match s with
       | [] => []
       | c :: s' => c :: replace_first s' pat by_
       end.

(** [const path = page.replace('pages', '').replace('.tsx', '')
    .replace('/index', '')] *)
Definition path (page : str) : str :=
  replace_first
    (replace_first (replace_first page (lit "pages") []) (lit ".tsx") [])
    (lit "/index") [].

(** [const route = path === '/index' ? '' : path] *)
Definition route (page : str) : str :=
  if str_eqb (path page) (lit "/index") then [] else path page.

(** [route === '' ? '1.0' : '0.7'] *)
Definition priority (page : str) : str :=
  if str_eqb (route page) [] then lit "1.0" else lit "0.7".

End Sitemap.

(** More sample inputs. *)

Module MoreSamples.
Import JS.

(** Development mode without a configured recipient. *)
Definition development_no_recipient : SendEmail.ProcessEnv :=
  {| SendEmail.env_RESEND_API_KEY := Some (lit "re_123");
     SendEmail.env_CONTACT_FORM_EMAIL := None;
     SendEmail.env_NEXT_PUBLIC_API_URL := None;
     SendEmail.env_NODE_ENV := Some (lit "development") |}.

(** [{email: "not-an-email", message: "<b>hi</b>\nthere"}] *)
Definition two_lines : str := lit "<b>hi</b>" ++ [10%N] ++ lit "there".
Definition markup : Val :=
  Obj [ (lit "email", Str (lit "not-an-email"));
        (lit "message", Str two_lines) ].

(** The message composed for [markup] in production. *)
Definition composed_markup : SendEmail.EmailData :=
  match SendEmail.emailData Samples.production (lit "owner@example.com")
          (Str (lit "not-an-email")) (Str two_lines) with
  | inr d => d
  | inl _ => {| SendEmail.from := []; SendEmail.to := [];
                SendEmail.replyTo := Undefined;
                SendEmail.subject := []; SendEmail.html := [] |}
  end.

(** A user opens the panel, submits at once, types an address, submits,
    types a message and submits to an endpoint that accepts. *)
Definition visit : list Session.Event :=
  [ Session.Click;
    Session.Submit Samples.offline;
    Session.Change Contact.email_field (lit "a@b.com");
    Session.Submit Samples.offline;
    Session.Change Contact.message_field (lit "hi");
    Session.Submit Samples.accepted ].

End MoreSamples.

(* ===================================================================== *)
(** * Facts about strings and regular expressions *)
(* ===================================================================== *)

Module JSFacts.
Import JS.

Lemma str_eqb_eq (a b : str) : str_eqb a b = true <-> a = b.
Proof.
  revert b; induction a as [|x a IH]; intros [|y b]; simpl;
    try (split; [discriminate | congruence]); try tauto.
  rewrite andb_true_iff, N.eqb_eq, IH.
  split; [intros [-> ->]; reflexivity | intros [= -> ->]; auto].
Qed.

Lemma str_eqb_refl (a : str) : str_eqb a a = true.
Proof. apply str_eqb_eq; reflexivity. Qed.

Lemma includes_In (xs : list str) (x : str) :
  includes xs x = true <-> In x xs.
Proof.
  unfold includes. rewrite existsb_exists. split.
  - intros (y & Hy & E). apply str_eqb_eq in E. subst; assumption.
  - intros H. exists x. split; [assumption | apply str_eqb_refl].
Qed.

(** [origin || ''] is the header when there is one. *)
Lemma or_str_empty (h : option str) :
  or_str h [] = match h with Some s => s | None => [] end.
Proof. destruct h as [[|c s]|]; reflexivity. Qed.

Lemma or_str_truthy (a : option str) (b : str) :
  truthy_str b = true -> truthy_str (or_str a b) = true.
Proof.
  intros Hb. destruct a as [s|]; simpl; [|assumption].
  destruct (truthy_str s) eqn:E; assumption.
Qed.

Lemma startsWith_app (p s : str) : startsWith (p ++ s) p = true.
Proof.
  induction p as [|c p IH]; simpl; [destruct s; reflexivity|].
  rewrite N.eqb_refl. exact IH.
Qed.

End JSFacts.

Module RegexFacts.
Import JS Regex.

Lemma matches_Void (s : str) : ~ matches Void s.
Proof. intros H; inversion H. Qed.

Lemma matches_Eps (s : str) : matches Eps s -> s = [].
Proof. intros H; inversion H; reflexivity. Qed.

Lemma matches_Cat (a b : re) (s : str) :
  matches (Cat a b) s ->
  exists s1 s2, s = s1 ++ s2 /\ matches a s1 /\ matches b s2.
Proof. intros H; inversion H; subst; eauto. Qed.

Lemma matches_Alt (a b : re) (s : str) :
  matches (Alt a b) s -> matches a s \/ matches b s.
Proof. intros H; inversion H; subst; auto. Qed.

(** A non-empty word of [a*] starts with a non-empty word of [a]. *)
Lemma matches_Star_cons (a : re) (c : char16) (s : str) :
  matches (Star a) (c :: s) ->
  exists s1 s2, s = s1 ++ s2 /\ matches a (c :: s1) /\ matches (Star a) s2.
Proof.
  intros H.
  remember (Star a) as r eqn:Er. remember (c :: s) as w eqn:Ew.
  induction H as [| | | | | |a' u t Hu _ Ht IH]; try discriminate.
  injection Er as ->.
  destruct u as [|c' u]; simpl in Ew.
  - apply IH; auto.
  - injection Ew as -> <-. eauto.
Qed.

Lemma nullable_matches (r : re) : nullable r = true <-> matches r [].
Proof.
  induction r as [| |n rs|a IHa b IHb|a IHa b IHb|a IHa]; simpl.
  - split; [discriminate | intros H; inversion H].
  - split; [constructor | reflexivity].
  - split; [discriminate | intros H; inversion H].
  - rewrite andb_true_iff, IHa, IHb. split.
    + intros [Ha Hb]. exact (m_cat Ha Hb).
    + intros H. apply matches_Cat in H as (s1 & s2 & E & Ha & Hb).
      symmetry in E. apply app_eq_nil in E as [-> ->]. auto.
  - rewrite orb_true_iff, IHa, IHb. split.
    + intros [H|H]; [apply m_alt_l | apply m_alt_r]; assumption.
    + apply matches_Alt.
  - split; [constructor | reflexivity].
Qed.

Lemma cat_matches (a b : re) (s : str) :
  matches (cat a b) s <-> matches (Cat a b) s.
Proof.
  assert (VL : forall x, matches Void s <-> matches (Cat Void x) s).
  { intros x; split; intros H; [inversion H|].
    apply matches_Cat in H as (? & ? & _ & H & _). inversion H. }
  assert (VR : forall x, matches Void s <-> matches (Cat x Void) s).
  { intros x; split; intros H; [inversion H|].
    apply matches_Cat in H as (? & ? & _ & _ & H). inversion H. }
  assert (EL : forall x, matches x s <-> matches (Cat Eps x) s).
  { intros x; split; intros H.
    - exact (m_cat m_eps H).
    - apply matches_Cat in H as (s1 & s2 & -> & H1 & H2).
      apply matches_Eps in H1 as ->. exact H2. }
  destruct a, b; simpl; auto; reflexivity.
Qed.

Lemma alt_matches (a b : re) (s : str) :
  matches (alt a b) s <-> matches (Alt a b) s.
Proof.
  assert (VL : forall x, matches x s <-> matches (Alt Void x) s).
  { intros x; split; intros H; [apply m_alt_r; exact H|].
    apply matches_Alt in H as [H|H]; [inversion H | exact H]. }
  assert (VR : forall x, matches x s <-> matches (Alt x Void) s).
  { intros x; split; intros H; [apply m_alt_l; exact H|].
    apply matches_Alt in H as [H|H]; [exact H | inversion H]. }
  destruct a, b; simpl; auto; reflexivity.
Qed.

Lemma deriv_matches (r : re) (c : char16) (s : str) :
  matches (deriv c r) s <-> matches r (c :: s).
Proof.
  revert s.
  induction r as [| |n rs|a IHa b IHb|a IHa b IHb|a IHa]; intros s; simpl.
  - split; intros H; inversion H.
  - split; intros H; inversion H.
  - destruct (accepts n rs c) eqn:E; split; intros H.
    + apply matches_Eps in H as ->. constructor; exact E.
    + inversion H; subst. constructor.
    + inversion H.
    + inversion H; subst. congruence.
  - assert (L : matches (cat (deriv c a) b) s <->
                exists s1 s2, s = s1 ++ s2 /\ matches a (c :: s1) /\ matches b s2).
    { rewrite cat_matches. split.
      - intros H. apply matches_Cat in H as (s1 & s2 & -> & H1 & H2).
        apply IHa in H1. eauto.
      - intros (s1 & s2 & -> & H1 & H2). apply IHa in H1.
        exact (m_cat H1 H2). }
    assert (R : matches (Cat a b) (c :: s) <->
                (exists s1 s2, s = s1 ++ s2 /\ matches a (c :: s1) /\ matches b s2)
                \/ (matches a [] /\ matches b (c :: s))).
    { split.
      - intros H. apply matches_Cat in H as (s1 & s2 & E & H1 & H2).
        destruct s1 as [|c' s1]; simpl in E.
        + subst s2. right; auto.
        + injection E as -> ->. left; eauto.
      - intros [(s1 & s2 & -> & H1 & H2)|[H1 H2]].
        + exact (m_cat H1 H2).
        + exact (m_cat H1 H2). }
    rewrite R. destruct (nullable a) eqn:N.
    + rewrite alt_matches. apply nullable_matches in N. split.
      * intros H. apply matches_Alt in H as [H|H].
        -- left. apply L. exact H.
        -- right. split; [exact N | apply IHb; exact H].
      * intros [H|[_ H]].
        -- apply m_alt_l. apply L. exact H.
        -- apply m_alt_r. apply IHb. exact H.
    + rewrite L. split; [auto|].
      intros [H|[H _]]; [exact H|].
      apply nullable_matches in H. congruence.
  - rewrite alt_matches. split.
    + intros H. apply matches_Alt in H as [H|H];
        [apply m_alt_l, IHa | apply m_alt_r, IHb]; exact H.
    + intros H. apply matches_Alt in H as [H|H];
        [apply m_alt_l, IHa | apply m_alt_r, IHb]; exact H.
  - rewrite cat_matches. split.
    + intros H. apply matches_Cat in H as (s1 & s2 & -> & H1 & H2).
      apply IHa in H1. exact (m_star_cons H1 H2).
    + intros H. apply matches_Star_cons in H as (s1 & s2 & -> & H1 & H2).
      apply IHa in H1. exact (m_cat H1 H2).
Qed.

(** The test by derivatives decides membership in the language. *)
Lemma test_matches (r : re) (s : str) : test r s = true <-> matches r s.
Proof.
  revert r; induction s as [|c s IH]; intros r; simpl.
  - apply nullable_matches.
  - rewrite IH. apply deriv_matches.
Qed.

(** The pattern on some addresses. *)
Example email_regex_accepts :
  test email_regex (lit "a@b.com") = true
  /\ test email_regex (lit "john.doe@[10.0.0.1]") = true
  /\ test email_regex (dquote :: lit "a b" ++ dquote :: lit "@mail-1.example.org") = true.
Proof. repeat split; vm_compute; reflexivity. Qed.

Example email_regex_rejects :
  test email_regex (lit "not-an-email") = false
  /\ test email_regex (lit "a..b@x.yz") = false
  /\ test email_regex (lit "a@b.c") = false
  /\ test email_regex (lit "a b@x.yz") = false
  /\ test email_regex [] = false.
Proof. repeat split; vm_compute; reflexivity. Qed.

End RegexFacts.

(* ===================================================================== *)
(** * The endpoint: properties *)
(* ===================================================================== *)

Module SendEmailSpec.
Import JS JSFacts SendEmail.

Section Route.

Variable process_env : ProcessEnv.
Variable new_Resend : str -> throws Resend.
Variable emails_send : Resend -> EmailData -> throws ResendEmailResponse.

#[local] Abbreviation handler := (handler process_env new_Resend emails_send).
#[local] Abbreviation process := (process process_env new_Resend emails_send).
#[local] Abbreviation try_block := (try_block process_env emails_send).
#[local] Abbreviation cors := (cors process_env).
#[local] Abbreviation resend := (resend process_env new_Resend).
#[local] Abbreviation emailData := (emailData process_env).
#[local] Abbreviation RESEND_API_KEY := (RESEND_API_KEY process_env).
#[local] Abbreviation CONTACT_FORM_EMAIL := (CONTACT_FORM_EMAIL process_env).
#[local] Abbreviation IS_DEVELOPMENT := (IS_DEVELOPMENT process_env).
#[local] Abbreviation API_URL := (API_URL process_env).

(** ** The shape of the handler *)

Lemma method_is_eq (req : NextApiRequest) (m : string) :
  method_is req m = true <-> method req = Some (lit m).
Proof.
  unfold method_is. destruct (method req) as [s|].
  - rewrite str_eqb_eq. split; congruence.
  - split; discriminate.
Qed.

Lemma handler_options (req : NextApiRequest) (res : NextApiResponse) :
  method req = Some (lit "OPTIONS") ->
  handler req res = ([], end_ (status 200 (cors req res))).
Proof.
  intros M. unfold SendEmail.handler.
  replace (method_is req "OPTIONS") with true; [reflexivity|].
  symmetry. apply method_is_eq. exact M.
Qed.

Lemma handler_post (req : NextApiRequest) (res : NextApiResponse) :
  method req = Some (lit "POST") ->
  handler req res = process req (cors req res).
Proof.
  intros M. unfold SendEmail.handler, method_is. rewrite M. reflexivity.
Qed.

Lemma handler_other (req : NextApiRequest) (res : NextApiResponse) :
  method req <> Some (lit "OPTIONS") ->
  method req <> Some (lit "POST") ->
  handler req res =
  ([], json (Obj [ field "message" "Method not allowed" ])
         (status 405 (cors req res))).
Proof.
  intros NO NP. unfold SendEmail.handler.
  destruct (method_is req "OPTIONS") eqn:EO.
  { apply method_is_eq in EO. contradiction. }
  destruct (method_is req "POST") eqn:EP.
  { apply method_is_eq in EP. contradiction. }
  reflexivity.
Qed.

(** Destructuring a body whose two properties can be read gives them. *)
Lemma destructure_body_reads (b email msg : Val) :
  get b "email" = inr email -> get b "message" = inr msg ->
  destructure_body b = inr (email, msg).
Proof.
  intros Ge Gm.
  destruct b; try discriminate; unfold destructure_body, bind;
    rewrite Ge, Gm; reflexivity.
Qed.

Lemma destructure_body_returns (b email msg : Val) :
  destructure_body b = inr (email, msg) ->
  get b "email" = inr email /\ get b "message" = inr msg.
Proof.
  destruct b; try discriminate; simpl; intros [= <- <-]; split; reflexivity.
Qed.

(** The [try] block of a request that passes both validations: the message
    is composed and, if that did not throw, sent once. *)
Lemma try_block_validated (client : Resend) (req : NextApiRequest)
    (res : NextApiResponse) (recipient : str) (email msg : Val) :
  get (body req) "email" = inr email -> truthy email = true ->
  get (body req) "message" = inr msg -> truthy msg = true ->
  CONTACT_FORM_EMAIL = Some recipient -> truthy_str recipient = true ->
  try_block client req res =
  match emailData recipient email msg with
  | inl x => ([], inl x)
  | inr d =>
      ([d],
       match emails_send client d with
       | inl x => inl x
       | inr r =>
           inr (match error r with
                | Some e =>
                    json (failed_to_send (SendEmail.message e)) (status 500 res)
                | None => json (sent_successfully r) (status 200 res)
                end)
       end)
  end.
Proof.
  intros Ge Te Gm Tm Hr Tr. unfold SendEmail.try_block.
  rewrite (destructure_body_reads _ Ge Gm).
  cbv beta iota zeta delta [lift act_bind fst snd]. rewrite Te, Tm, Hr, Tr.
  cbv beta iota delta [negb orb].
  destruct (emailData recipient email msg) as [x|d]; [reflexivity|].
  unfold act_bind.
  destruct (emails_send client d) as [x|r]; [reflexivity|].
  destruct (error r); reflexivity.
Qed.


(** Whatever the [try] block sends keeps the headers set before it, has
    status 200, 400 or 500 and a JSON body. *)
Lemma try_block_sent (client : Resend) (req : NextApiRequest)
    (res : NextApiResponse) (calls : list EmailData) (sent : NextApiResponse) :
  try_block client req res = (calls, inr sent) ->
  res_headers sent = res_headers res
  /\ (statusCode sent = 200 \/ statusCode sent = 400 \/ statusCode sent = 500)%N
  /\ exists v, payload sent = Json v.
Proof.
  unfold SendEmail.try_block, lift, act_bind, act_ret.
  destruct (destructure_body (body req)) as [x|[email msg]]; [discriminate|].
  cbv beta iota zeta delta [fst snd].
  destruct (negb (truthy email) || negb (truthy msg)).
  { intros [= _ <-]. simpl. eauto 6. }
  destruct CONTACT_FORM_EMAIL as [recipient|].
  2: { intros [= _ <-]. simpl. eauto 6. }
  destruct (truthy_str recipient).
  2: { intros [= _ <-]. simpl. eauto 6. }
  destruct (SendEmail.emailData process_env recipient email msg) as [x|d];
    [discriminate|].
  destruct (emails_send client d) as [x|r]; [discriminate|].
  destruct (error r); intros [= _ <-]; simpl; eauto 6.
Qed.

Lemma process_sent (req : NextApiRequest) (res : NextApiResponse) :
  let sent := snd (process req res) in
  res_headers sent = res_headers res
  /\ (statusCode sent = 200 \/ statusCode sent = 400 \/ statusCode sent = 500)%N
  /\ exists v, payload sent = Json v.
Proof.
  unfold SendEmail.process. destruct resend as [client|]; simpl.
  2: { eauto 6. }
  destruct (try_block client req res) as [calls [x|sent]] eqn:T; simpl.
  - eauto 6.
  - exact (try_block_sent _ _ _ T).
Qed.

(** Every path of the handler sends the headers of the CORS block. *)
Lemma handler_headers (req : NextApiRequest) (res : NextApiResponse) :
  res_headers (snd (handler req res)) = res_headers (cors req res).
Proof.
  unfold SendEmail.handler.
  destruct (method_is req "OPTIONS"); [reflexivity|].
  destruct (method_is req "POST"); [|reflexivity].
  apply process_sent.
Qed.

(** The client exists exactly when the key is set, starts with [re_], and
    the constructor returns. *)
Lemma resend_initialized (client : Resend) :
  resend = Some client <->
  exists k, RESEND_API_KEY = Some k /\ truthy_str k = true
            /\ startsWith k (lit "re_") = true /\ new_Resend k = inr client.
Proof.
  unfold SendEmail.resend, initialize.
  destruct RESEND_API_KEY as [k|].
  - destruct (truthy_str k) eqn:T; simpl.
    + destruct (startsWith k (lit "re_")) eqn:P; simpl.
      * destruct (new_Resend k) as [x|c] eqn:K; split.
        -- discriminate.
        -- intros (k' & [= <-] & _ & _ & K'). congruence.
        -- intros [= <-]. exists k. auto.
        -- intros (k' & [= <-] & _ & _ & K'). congruence.
      * split; [discriminate|].
        intros (k' & [= <-] & _ & P' & _). congruence.
    + split; [discriminate|].
      intros (k' & [= <-] & T' & _). congruence.
  - split; [discriminate|]. intros (k' & E & _). discriminate.
Qed.

(** The allow-list never holds the empty string, which stands for an absent
    [Origin] header. *)
Lemma allowedOrigins_nonempty : ~ In [] (allowedOrigins process_env).
Proof.
  unfold allowedOrigins. simpl. intros [E|[E|[]]]; [|discriminate].
  assert (T : truthy_str API_URL = true)
    by (apply or_str_truthy; reflexivity).
  rewrite E in T. discriminate.
Qed.

Lemma cors_condition (req : NextApiRequest) :
  IS_DEVELOPMENT
  || includes (allowedOrigins process_env) (or_str (origin (headers req)) [])
  = true
  <-> IS_DEVELOPMENT = true
      \/ exists o, origin (headers req) = Some o
                   /\ In o [API_URL; lit "http://localhost:3000"].
Proof.
  rewrite orb_true_iff, includes_In, or_str_empty.
  split; (intros [D|H]; [left; exact D | right]).
  - destruct (origin (headers req)) as [o|]; [eauto|].
    destruct (allowedOrigins_nonempty H).
  - destruct H as (o & -> & H). exact H.
Qed.

(** The fields of a composed message. *)
Lemma emailData_fields (recipient : str) (email msg : Val) (d : EmailData) :
  emailData recipient email msg = inr d ->
  replyTo d = email
  /\ from d = (if IS_DEVELOPMENT
               then lit "Romain BOBOE <onboarding@resend.dev>"
               else lit "Contact Form <hi@romainboboe.com>")
  /\ to d = (if IS_DEVELOPMENT then lit "rboboe@gmail.com" else recipient)
  /\ subject d = (if IS_DEVELOPMENT then lit "[TEST] " else [])
                 ++ incoming_envelope
                 ++ lit " New Message from RomainBOBOE.com".
Proof.
  unfold SendEmail.emailData, bind, ret.
  destruct (ToString email) as [x|text]; [discriminate|].
  destruct (message_replace msg) as [x|text']; [discriminate|].
  intros [= <-]. simpl. auto.
Qed.

(** Composition succeeds exactly when [email] converts to a string and
    [message] is a string. *)
Lemma emailData_returns (recipient : str) (email : Val) (text s : str) :
  ToString email = inr text ->
  exists d, emailData recipient email (Str s) = inr d
            /\ html d = html_template process_env text
                          (replace_newlines s (lit "<br>")).
Proof.
  intros E. unfold SendEmail.emailData, bind, ret. rewrite E. simpl.
  eexists. split; reflexivity.
Qed.

Lemma emailData_throws (recipient : str) (email msg : Val) :
  truthy msg = true -> (forall s, msg <> Str s) ->
  exists x, emailData recipient email msg = inl x
            /\ (forall text, ToString email = inr text ->
                x = TypeError "message.replace is not a function").
Proof.
  intros T NS. unfold SendEmail.emailData, bind.
  destruct (ToString email) as [x|text].
  - exists x. split; [reflexivity|]. discriminate.
  - destruct msg as [| |b|n|s|items|props]; simpl in *;
      try discriminate; try (eexists; split; [reflexivity|]; reflexivity).
    destruct (NS s eq_refl).
Qed.


(** ** Dispatch and the outer catch *)

(** C1. A POST request that passes field and recipient validation gets the
    response that the provider's send result decides: a result with an
    error gives 500 with the provider's error message, a result with a
    message id and no error gives 200 with that id, and the message is
    handed to the provider once. An exception thrown in the handler's body
    -- while reading the request body, composing the message or sending it
    -- is caught and gives 500 "Failed to send email" with the message of
    the exception. *)
Theorem send_result_decides_response :
  (forall req res client calls x,
      method req = Some (lit "POST") ->
      resend = Some client ->
      try_block client req (cors req res) = (calls, inl x) ->
      replies (snd (handler req res)) 500
        (Json (Obj [ (lit "success", Bool false);
                     (lit "message", Str (lit "Failed to send email"));
                     (lit "error", Str (err_message x)) ])))
  /\
  (forall req res client recipient email msg,
      method req = Some (lit "POST") ->
      resend = Some client ->
      get (body req) "email" = inr email -> truthy email = true ->
      get (body req) "message" = inr msg -> truthy msg = true ->
      CONTACT_FORM_EMAIL = Some recipient -> truthy_str recipient = true ->
      let out := handler req res in
      (forall x, emailData recipient email msg = inl x ->
         fst out = []
         /\ replies (snd out) 500
              (Json (Obj [ (lit "success", Bool false);
                           (lit "message", Str (lit "Failed to send email"));
                           (lit "error", Str (err_message x)) ])))
      /\
      (forall d, emailData recipient email msg = inr d ->
         fst out = [d]
         /\ (forall x, emails_send client d = inl x ->
               replies (snd out) 500
                 (Json (Obj [ (lit "success", Bool false);
                              (lit "message", Str (lit "Failed to send email"));
                              (lit "error", Str (err_message x)) ])))
         /\ (forall r e, emails_send client d = inr r -> error r = Some e ->
               replies (snd out) 500
                 (Json (Obj [ (lit "success", Bool false);
                              (lit "message", Str (lit "Failed to send email"));
                              (lit "error", Str (SendEmail.message e)) ])))
         /\ (forall r i, emails_send client d = inr r -> error r = None ->
               data r = Some i ->
               replies (snd out) 200
                 (Json (Obj [ (lit "success", Bool true);
                              (lit "message", Str (lit "Email sent successfully"));
                              (lit "id", Str (id i)) ]))))).
Proof.
  split.
  - intros req res client calls x M R T.
    rewrite (handler_post _ _ M). unfold SendEmail.process.
    rewrite R, T. split; reflexivity.
  - intros req res client recipient email msg M R Ge Te Gm Tm Hr Tr out.
    subst out. rewrite (handler_post _ _ M). unfold SendEmail.process.
    rewrite R, (try_block_validated client req _ Ge Te Gm Tm Hr Tr).
    split.
    + intros x E. rewrite E. repeat split.
    + intros d E. rewrite E. split; [|split; [|split]].
      * destruct (emails_send client d); reflexivity.
      * intros x S. rewrite S. split; reflexivity.
      * intros r e S Er. rewrite S, Er. split; reflexivity.
      * intros r i S Er Dr. rewrite S, Er. unfold sent_successfully.
        rewrite Dr. split; reflexivity.
Qed.

(** C2, for POST requests. When the provider client failed to initialize, every
    POST request gets 500 "Email service not initialized" with error
    "Internal server error", whatever its body: nothing is sent and the
    outcome is the same for every body. *)
Theorem uninitialized_client_fails_every_post
    (req : NextApiRequest) (res : NextApiResponse) :
  resend = None ->
  method req = Some (lit "POST") ->
  fst (handler req res) = []
  /\ replies (snd (handler req res)) 500
       (Json (Obj [ (lit "success", Bool false);
                    (lit "message", Str (lit "Email service not initialized"));
                    (lit "error", Str (lit "Internal server error")) ]))
  /\ forall b,
       handler {| method := method req; headers := headers req; body := b |}
               res
       = handler req res.
Proof.
  intros R M. repeat split.
  - rewrite (handler_post _ _ M). unfold SendEmail.process. rewrite R.
    reflexivity.
  - rewrite (handler_post _ _ M). unfold SendEmail.process. rewrite R.
    reflexivity.
  - rewrite (handler_post _ _ M). unfold SendEmail.process. rewrite R.
    reflexivity.
  - intros b. rewrite (handler_post req _ M).
    rewrite handler_post by exact M.
    unfold SendEmail.process. rewrite R. reflexivity.
Qed.

(** C3, with the readiness check. A POST request whose parsed body is neither [null] nor
    [undefined] and lacks a truthy [email] or a truthy [message] gets 400
    "Email and message are required" when the provider client is
    initialized, and nothing is sent; when the client is not initialized
    the same request gets the 500 "Email service not initialized"
    response. *)
Theorem missing_field_is_rejected
    (req : NextApiRequest) (res : NextApiResponse) (email msg : Val) :
  method req = Some (lit "POST") ->
  get (body req) "email" = inr email ->
  get (body req) "message" = inr msg ->
  truthy email = false \/ truthy msg = false ->
  (forall client, resend = Some client ->
     fst (handler req res) = []
     /\ replies (snd (handler req res)) 400
          (Json (Obj [ (lit "message",
                        Str (lit "Email and message are required")) ])))
  /\ (resend = None ->
      replies (snd (handler req res)) 500
        (Json (Obj [ (lit "success", Bool false);
                     (lit "message", Str (lit "Email service not initialized"));
                     (lit "error", Str (lit "Internal server error")) ]))).
Proof.
  intros M Ge Gm F. rewrite (handler_post _ _ M). unfold SendEmail.process.
  split.
  - intros client R. rewrite R. unfold SendEmail.try_block.
    rewrite (destructure_body_reads _ Ge Gm).
    cbv beta iota zeta delta [lift act_bind fst snd].
    replace (negb (truthy email) || negb (truthy msg)) with true.
    + repeat split.
    + destruct F as [-> | ->]; [reflexivity|].
      symmetry; apply orb_true_r.
  - intros R. rewrite R. split; reflexivity.
Qed.

(** C5. The handler dispatches on the method: OPTIONS gets 200 and an empty
    body; POST goes on to the processing steps, which answer 200, 400 or
    500 with a JSON body; every other method gets 405 "Method not
    allowed". *)
Theorem method_dispatch (req : NextApiRequest) (res : NextApiResponse) :
  (method req = Some (lit "OPTIONS") ->
     fst (handler req res) = []
     /\ replies (snd (handler req res)) 200 Ended)
  /\ (method req = Some (lit "POST") ->
        handler req res = process req (cors req res)
        /\ (statusCode (snd (handler req res)) = 200
            \/ statusCode (snd (handler req res)) = 400
            \/ statusCode (snd (handler req res)) = 500)%N
        /\ exists v, payload (snd (handler req res)) = Json v)
  /\ (method req <> Some (lit "OPTIONS") ->
      method req <> Some (lit "POST") ->
        fst (handler req res) = []
        /\ replies (snd (handler req res)) 405
             (Json (Obj [ (lit "message", Str (lit "Method not allowed")) ]))).
Proof.
  split; [|split].
  - intros M. rewrite (handler_options _ _ M). repeat split.
  - intros M. rewrite (handler_post _ _ M).
    split; [reflexivity|]. apply process_sent.
  - intros NO NP. rewrite (handler_other _ _ NO NP). repeat split.
Qed.

(** C6. If development mode is on, or the request has an Origin header
    that is in the allow-list (the configured public origin and
    http://localhost:3000), the response carries
    Access-Control-Allow-Origin with the request's origin (empty when the
    request has none), Access-Control-Allow-Methods "POST, OPTIONS" and
    Access-Control-Allow-Headers "Content-Type"; otherwise the handler
    sets none of them. *)
Theorem cors_headers (req : NextApiRequest) :
  let sent := res_headers (snd (handler req new_response)) in
  let allowed :=
    IS_DEVELOPMENT = true
    \/ exists o, origin (headers req) = Some o
                 /\ In o [API_URL; lit "http://localhost:3000"] in
  (allowed ->
     sent = [ (lit "Access-Control-Allow-Origin",
               match origin (headers req) with Some o => o | None => [] end);
              (lit "Access-Control-Allow-Methods", lit "POST, OPTIONS");
              (lit "Access-Control-Allow-Headers", lit "Content-Type") ])
  /\ (~ allowed -> sent = []).
Proof.
  intros sent allowed. subst sent. rewrite handler_headers.
  unfold SendEmail.cors.
  pose proof (cors_condition req) as C. fold allowed in C.
  destruct (IS_DEVELOPMENT || includes _ _).
  - split; [intros _ | intros N; destruct N; apply C; reflexivity].
    rewrite or_str_empty. reflexivity.
  - split; [intros A; apply C in A; discriminate | reflexivity].
Qed.

(** C7. When a POST request reaches the compose step and the message is
    composed, that message is the one handed to the provider; its replyTo
    is the [email] of the request body; in development mode its sender is
    onboarding@resend.dev, its recipient rboboe@gmail.com whatever the
    configured recipient, and its subject starts with "[TEST] "; in
    production mode its sender is the public identity hi@romainboboe.com
    and its recipient the configured address. *)
Theorem composed_message
    (req : NextApiRequest) (res : NextApiResponse) (client : Resend)
    (recipient : str) (email msg : Val) (d : EmailData) :
  method req = Some (lit "POST") ->
  resend = Some client ->
  get (body req) "email" = inr email -> truthy email = true ->
  get (body req) "message" = inr msg -> truthy msg = true ->
  CONTACT_FORM_EMAIL = Some recipient -> truthy_str recipient = true ->
  emailData recipient email msg = inr d ->
  fst (handler req res) = [d]
  /\ replyTo d = email
  /\ (IS_DEVELOPMENT = true ->
        from d = lit "Romain BOBOE <onboarding@resend.dev>"
        /\ to d = lit "rboboe@gmail.com"
        /\ startsWith (subject d) (lit "[TEST] ") = true)
  /\ (IS_DEVELOPMENT = false ->
        from d = lit "Contact Form <hi@romainboboe.com>"
        /\ to d = recipient).
Proof.
  intros M R Ge Te Gm Tm Hr Tr E.
  destruct (emailData_fields _ _ _ E) as (Hreply & Hfrom & Hto & Hsubject).
  split; [|split; [exact Hreply|split]].
  - rewrite (handler_post _ _ M). unfold SendEmail.process.
    rewrite R, (try_block_validated client req _ Ge Te Gm Tm Hr Tr), E.
    destruct (emails_send client d); reflexivity.
  - intros D. rewrite D in *. repeat split; try assumption.
    rewrite Hsubject. apply startsWith_app.
  - intros D. rewrite D in *. split; assumption.
Qed.

(** C10, past the checks that precede the compose step. A POST request with a truthy [email] and a truthy
    [message] that is not a string, handled with an initialized client and
    a configured recipient, is not answered 400: composing the message
    throws, nothing is sent, and the catch answers 500 "Failed to send
    email" with the message of the exception, which is that of the failed
    [message.replace] call whenever [email] itself converts to a string. *)
Theorem non_string_message_fails
    (req : NextApiRequest) (res : NextApiResponse) (client : Resend)
    (recipient : str) (email msg : Val) :
  method req = Some (lit "POST") ->
  resend = Some client ->
  get (body req) "email" = inr email -> truthy email = true ->
  get (body req) "message" = inr msg -> truthy msg = true ->
  (forall s, msg <> Str s) ->
  CONTACT_FORM_EMAIL = Some recipient -> truthy_str recipient = true ->
  fst (handler req res) = []
  /\ exists x,
       emailData recipient email msg = inl x
       /\ replies (snd (handler req res)) 500
            (Json (Obj [ (lit "success", Bool false);
                         (lit "message", Str (lit "Failed to send email"));
                         (lit "error", Str (err_message x)) ]))
       /\ (forall text, ToString email = inr text ->
             x = TypeError "message.replace is not a function").
Proof.
  intros M R Ge Te Gm Tm NS Hr Tr.
  destruct (emailData_throws recipient email Tm NS) as (x & E & Hx).
  rewrite (handler_post _ _ M). unfold SendEmail.process.
  rewrite R, (try_block_validated client req _ Ge Te Gm Tm Hr Tr), E.
  split; [reflexivity|]. exists x. repeat split. exact Hx.
Qed.

End Route.

(** ** The properties on the sample inputs *)

Import Samples.

(** The spec's example: [{email: "a@b.com", message: "hi"}] and a provider
    that succeeds with id [abc123]; then a provider that reports an error,
    one that throws, and a [null] body. *)
Lemma send_result_decides_response_witness :
  replies (snd (handler production connects delivers (request "POST" None hi) new_response))
    200
    (Json (Obj [ (lit "success", Bool true);
                 (lit "message", Str (lit "Email sent successfully"));
                 (lit "id", Str (lit "abc123")) ]))
  /\ replies (snd (handler production connects refuses (request "POST" None hi) new_response))
       500
       (Json (Obj [ (lit "success", Bool false);
                    (lit "message", Str (lit "Failed to send email"));
                    (lit "error", Str (lit "Invalid sender")) ]))
  /\ replies (snd (handler production connects unreachable (request "POST" None hi) new_response))
       500
       (Json (Obj [ (lit "success", Bool false);
                    (lit "message", Str (lit "Failed to send email"));
                    (lit "error", Str (lit "socket hang up")) ]))
  /\ replies (snd (handler production connects delivers (request "POST" None Null) new_response))
       500
       (Json (Obj [ (lit "success", Bool false);
                    (lit "message", Str (lit "Failed to send email"));
                    (lit "error",
                     Str (lit "Cannot destructure property 'email' of 'req.body' as it is null.")) ])).
Proof.
  assert (V : forall send,
             forall d,
               emailData production (lit "owner@example.com")
                 (Str (lit "a@b.com")) (Str (lit "hi")) = inr d ->
               _) by
    (intros send;
     exact (proj2 (proj2 (send_result_decides_response production connects send)
                    (request "POST" None hi) new_response client
                    (lit "owner@example.com") (Str (lit "a@b.com"))
                    (Str (lit "hi"))
                    eq_refl eq_refl eq_refl eq_refl eq_refl eq_refl
                    eq_refl eq_refl))).
  split; [|split; [|split]].
  - destruct (V delivers _ eq_refl) as (_ & _ & _ & H).
    exact (H _ _ eq_refl eq_refl eq_refl).
  - destruct (V refuses _ eq_refl) as (_ & _ & H & _).
    exact (H _ _ eq_refl eq_refl).
  - destruct (V unreachable _ eq_refl) as (_ & H & _).
    exact (H _ eq_refl).
  - exact (proj1 (send_result_decides_response production connects delivers)
             (request "POST" None Null) new_response client [] _
             eq_refl eq_refl eq_refl).
Defined.


(** A key without the [re_] prefix leaves the client uninitialized; a POST
    request then gets the 500 response, for this body as for any other. *)
Lemma uninitialized_client_fails_every_post_witness :
  resend malformed_key connects = None
  /\ replies
       (snd (handler malformed_key connects delivers (request "POST" None hi) new_response))
       500
       (Json (Obj [ (lit "success", Bool false);
                    (lit "message", Str (lit "Email service not initialized"));
                    (lit "error", Str (lit "Internal server error")) ])).
Proof.
  split; [reflexivity|].
  exact (proj1 (proj2 (uninitialized_client_fails_every_post
                         malformed_key connects delivers (request "POST" None hi)
                         new_response eq_refl eq_refl))).
Defined.

(** C2 does not extend to other methods: with the client uninitialized a GET request gets
    405 and an OPTIONS request 200, not the 500 response. *)
Lemma uninitialized_client_other_methods :
  resend malformed_key connects = None
  /\ replies
       (snd (handler malformed_key connects delivers (request "GET" None hi) new_response))
       405
       (Json (Obj [ (lit "message", Str (lit "Method not allowed")) ]))
  /\ replies
       (snd (handler malformed_key connects delivers (request "OPTIONS" None hi)
               new_response))
       200 Ended
  /\ ~ replies
       (snd (handler malformed_key connects delivers (request "GET" None hi) new_response))
       500
       (Json (Obj [ (lit "success", Bool false);
                    (lit "message", Str (lit "Email service not initialized"));
                    (lit "error", Str (lit "Internal server error")) ])).
Proof.
  repeat split; try reflexivity.
  intros [H _]. vm_compute in H. discriminate.
Qed.

(** A body without [message]: 400 with the client, 500 without it. *)
Lemma missing_field_is_rejected_witness :
  replies
    (snd (handler production connects delivers (request "POST" None no_message)
            new_response))
    400
    (Json (Obj [ (lit "message", Str (lit "Email and message are required")) ]))
  /\ replies
       (snd (handler malformed_key connects delivers (request "POST" None no_message)
               new_response))
       500
       (Json (Obj [ (lit "success", Bool false);
                    (lit "message", Str (lit "Email service not initialized"));
                    (lit "error", Str (lit "Internal server error")) ])).
Proof.
  split.
  - exact (proj2 (proj1 (missing_field_is_rejected production connects delivers
                           (request "POST" None no_message) new_response
                           eq_refl eq_refl eq_refl (or_intror eq_refl))
                    client eq_refl)).
  - exact (proj2 (missing_field_is_rejected malformed_key connects delivers
                    (request "POST" None no_message) new_response
                    eq_refl eq_refl eq_refl (or_intror eq_refl))
             eq_refl).
Defined.

(** C3 depends on the client: with the client uninitialized a POST request
    without [message] gets 500, not 400. (A body that is [null] has no
    [message] either and gets 500 from the catch, with the client
    initialized.) *)
Lemma missing_field_without_client :
  (resend malformed_key connects = None
   /\ get no_message "message" = inr Undefined
   /\ statusCode
        (snd (handler malformed_key connects delivers (request "POST" None no_message)
                new_response)) = 500%N
   /\ ~ replies
        (snd (handler malformed_key connects delivers (request "POST" None no_message)
                new_response))
        400
        (Json (Obj [ (lit "message",
                      Str (lit "Email and message are required")) ])))
  /\ (resend production connects = Some client
      /\ statusCode
           (snd (handler production connects delivers (request "POST" None Null)
                   new_response)) = 500%N).
Proof.
  repeat split.
  intros [H _]. vm_compute in H. discriminate.
Qed.

Lemma method_dispatch_witness :
  replies
    (snd (handler production connects delivers (request "OPTIONS" None Undefined)
            new_response))
    200 Ended
  /\ handler production connects delivers (request "POST" None hi) new_response
     = SendEmail.process production connects delivers (request "POST" None hi)
         (SendEmail.cors production (request "POST" None hi) new_response)
  /\ replies
       (snd (handler production connects delivers (request "DELETE" None hi) new_response))
       405
       (Json (Obj [ (lit "message", Str (lit "Method not allowed")) ])).
Proof.
  split; [|split].
  - exact (proj2 (proj1 (method_dispatch production connects delivers
                           (request "OPTIONS" None Undefined) new_response)
                    eq_refl)).
  - exact (proj1 (proj1 (proj2 (method_dispatch production connects delivers
                                  (request "POST" None hi) new_response))
                    eq_refl)).
  - refine (proj2 (proj2 (proj2 (method_dispatch production connects delivers
                                   (request "DELETE" None hi) new_response))
                     _ _)); discriminate.
Defined.

(** An allowed origin in production, no Origin header in development, and
    a foreign origin in production. *)
Lemma cors_headers_witness :
  res_headers
    (snd (handler production connects delivers
            (request "OPTIONS" (Some (lit "https://romainboboe.com")) Undefined)
            new_response))
  = [ (lit "Access-Control-Allow-Origin", lit "https://romainboboe.com");
      (lit "Access-Control-Allow-Methods", lit "POST, OPTIONS");
      (lit "Access-Control-Allow-Headers", lit "Content-Type") ]
  /\ res_headers
       (snd (handler development connects delivers (request "POST" None hi) new_response))
     = [ (lit "Access-Control-Allow-Origin", []);
         (lit "Access-Control-Allow-Methods", lit "POST, OPTIONS");
         (lit "Access-Control-Allow-Headers", lit "Content-Type") ]
  /\ res_headers
       (snd (handler production connects delivers
               (request "POST" (Some (lit "https://elsewhere.example")) hi)
               new_response))
     = [].
Proof.
  split; [|split].
  - apply (proj1 (cors_headers production connects delivers
                    (request "OPTIONS" (Some (lit "https://romainboboe.com"))
                       Undefined))).
    right. exists (lit "https://romainboboe.com").
    split; [reflexivity | left; reflexivity].
  - apply (proj1 (cors_headers development connects delivers (request "POST" None hi))).
    left. reflexivity.
  - apply (proj2 (cors_headers production connects delivers
                    (request "POST" (Some (lit "https://elsewhere.example")) hi))).
    intros [D | (o & [= <-] & [E | [E | []]])]; discriminate.
Defined.

Lemma composed_message_witness :
  (fst (handler development connects delivers (request "POST" None hi) new_response)
   = [composed development]
   /\ from (composed development) = lit "Romain BOBOE <onboarding@resend.dev>"
   /\ to (composed development) = lit "rboboe@gmail.com"
   /\ startsWith (subject (composed development)) (lit "[TEST] ") = true
   /\ replyTo (composed development) = Str (lit "a@b.com"))
  /\
  (fst (handler production connects delivers (request "POST" None hi) new_response)
   = [composed production]
   /\ from (composed production) = lit "Contact Form <hi@romainboboe.com>"
   /\ to (composed production) = lit "owner@example.com"
   /\ replyTo (composed production) = Str (lit "a@b.com")).
Proof.
  split.
  - destruct (composed_message development connects delivers
                (request "POST" None hi) new_response
                (client := client) (recipient := lit "owner@example.com")
                (email := Str (lit "a@b.com")) (msg := Str (lit "hi"))
                (d := composed development)
                eq_refl eq_refl eq_refl eq_refl eq_refl eq_refl eq_refl
                eq_refl eq_refl)
      as (Hsent & Hreply & Hdev & _).
    destruct (Hdev eq_refl) as (Hfrom & Hto & Hsubject).
    repeat split; assumption.
  - destruct (composed_message production connects delivers
                (request "POST" None hi) new_response
                (client := client) (recipient := lit "owner@example.com")
                (email := Str (lit "a@b.com")) (msg := Str (lit "hi"))
                (d := composed production)
                eq_refl eq_refl eq_refl eq_refl eq_refl eq_refl eq_refl
                eq_refl eq_refl)
      as (Hsent & Hreply & _ & Hprod).
    destruct (Hprod eq_refl) as (Hfrom & Hto).
    repeat split; assumption.
Defined.

(** [{email: "a@b.com", message: 42}]: composing throws, 500. *)
Lemma non_string_message_fails_witness :
  fst (handler production connects delivers (request "POST" None number_message)
         new_response) = []
  /\ replies
       (snd (handler production connects delivers (request "POST" None number_message)
               new_response))
       500
       (Json (Obj [ (lit "success", Bool false);
                    (lit "message", Str (lit "Failed to send email"));
                    (lit "error", Str (lit "message.replace is not a function")) ])).
Proof.
  destruct (non_string_message_fails production connects delivers
              (request "POST" None number_message) new_response
              (client := client) (recipient := lit "owner@example.com")
              (email := Str (lit "a@b.com")) (msg := Num forty_two)
              eq_refl eq_refl eq_refl eq_refl eq_refl eq_refl
              ltac:(intros s; discriminate)
              eq_refl eq_refl)
    as (Hcalls & x & _ & Hreply & Hx).
  split; [exact Hcalls|].
  rewrite (Hx _ eq_refl) in Hreply. exact Hreply.
Defined.

(** C10 needs the other checks to pass: [{message: 42}] has a truthy [message] that is not
    a string, and the request gets 400, because [email] is missing. (With
    [email] present the answer is a 500 other than "Failed to send email"
    when the client is not initialized or no recipient is configured.) *)
Lemma non_string_message_without_email :
  (get only_a_number "message" = inr (Num forty_two)
   /\ truthy (Num forty_two) = true
   /\ resend production connects = Some client
   /\ replies
        (snd (handler production connects delivers (request "POST" None only_a_number)
                new_response))
        400
        (Json (Obj [ (lit "message",
                      Str (lit "Email and message are required")) ])))
  /\ replies
       (snd (handler malformed_key connects delivers (request "POST" None number_message)
               new_response))
       500
       (Json (Obj [ (lit "success", Bool false);
                    (lit "message", Str (lit "Email service not initialized"));
                    (lit "error", Str (lit "Internal server error")) ]))
  /\ replies
       (snd (handler no_recipient connects delivers (request "POST" None number_message)
               new_response))
       500
       (Json (Obj [ (lit "message",
                     Str (lit "Email service configuration error"));
                    (lit "details", Str (lit "Recipient email is missing")) ])).
Proof. repeat split. Qed.

End SendEmailSpec.

(* ===================================================================== *)
(** * The widget: properties *)
(* ===================================================================== *)

Module ContactSpec.
Import JS Contact.

Section Widget.

Variable toLowerCase : str -> str.
Variable NODE_ENV : option str.
Variable NEXT_PUBLIC_SITE_URL : option str.

#[local] Abbreviation handleSubmit_start :=
  (handleSubmit_start toLowerCase NODE_ENV NEXT_PUBLIC_SITE_URL).
#[local] Abbreviation handleSubmit :=
  (handleSubmit toLowerCase NODE_ENV NEXT_PUBLIC_SITE_URL).
#[local] Abbreviation baseUrl := (baseUrl NODE_ENV NEXT_PUBLIC_SITE_URL).

Lemma truthy_str_false (s : str) : truthy_str s = false <-> s = [].
Proof. destruct s; simpl; split; congruence. Qed.

Lemma truthy_str_true (s : str) : truthy_str s = true <-> s <> [].
Proof. destruct s; simpl; split; congruence. Qed.

(** A non-2xx response always ends in the [throw] of the [if]. *)
Lemma after_fetch_not_ok (r : Response) :
  ok r = false -> exists x, after_fetch (inr r) = inl x.
Proof.
  intros K. unfold after_fetch, bind, ret, throw. rewrite K. simpl.
  destruct (json r) as [x|errorData]; [eauto|].
  destruct (get errorData "message") as [x|reason]; [eauto|].
  destruct (truthy reason); [|eauto].
  destruct (ToString reason); eauto.
Qed.

(** The [try] completes exactly on a 2xx response with a JSON body. *)
Lemma after_fetch_returns (settled : throws Response) :
  (exists u, after_fetch settled = inr u) <->
  exists r data, settled = inr r /\ ok r = true /\ json r = inr data.
Proof.
  split.
  - intros (u & E). destruct settled as [x|r]; [discriminate|].
    destruct (ok r) eqn:K.
    + unfold after_fetch, bind in E. rewrite K in E. simpl in E.
      destruct (json r) as [x|data] eqn:J; [discriminate|]. eauto.
    + destruct (after_fetch_not_ok r K) as (x & E'). congruence.
  - intros (r & data & -> & K & J). unfold after_fetch, bind.
    rewrite K, J. simpl. eauto.
Qed.

(** The two ways [handleSubmit] can end after a request. *)
Lemma settle_failure (settled : throws Response) (x : Error) (st : State) :
  after_fetch settled = inl x ->
  handleSubmit_settle settled st
  = setLoading false
      (setError (Some (lit "Failed to send message. Please try again later."))
         st).
Proof. intros E. unfold handleSubmit_settle. rewrite E. reflexivity. Qed.

Lemma settle_success (settled : throws Response) (u : unit) (st : State) :
  after_fetch settled = inr u ->
  handleSubmit_settle settled st
  = setLoading false
      (setFormState empty_form
         (setSuccess
            (Some (lit "Message sent successfully! I'll get back to you soon. "
                   ++ rocket))
            st)).
Proof. intros E. unfold handleSubmit_settle. rewrite E. reflexivity. Qed.

(** What [handleSubmit_start] leaves of the state. *)
Lemma start_aborted (st st' : State) :
  handleSubmit_start st = Aborted st' ->
  Field.value (email (formState st')) = Field.value (email (formState st))
  /\ Field.value (message (formState st')) = Field.value (message (formState st)).
Proof.
  unfold Contact.handleSubmit_start.
  destruct (negb (truthy_str _)); [intros [= <-]; split; reflexivity|].
  destruct (negb (Regex.test _ _)); [intros [= <-]; split; reflexivity|].
  destruct (negb (truthy_str _)); [intros [= <-]; split; reflexivity|].
  discriminate.
Qed.

Lemma start_fetching (st st' : State) (request : Request) :
  handleSubmit_start st = Fetching st' request ->
  st' = setSuccess None (setError None (setLoading true st))
  /\ Field.value (email (formState st)) <> []
  /\ Regex.test Regex.email_regex
       (toLowerCase (Field.value (email (formState st)))) = true
  /\ Field.value (message (formState st)) <> []
  /\ request
     = {| url := baseUrl ++ lit "/api/send-email";
          method := lit "POST";
          headers := [ (lit "Content-Type", lit "application/json") ];
          body := Obj [ (lit "email", Str (Field.value (email (formState st))));
                        (lit "message",
                         Str (Field.value (message (formState st)))) ] |}.
Proof.
  unfold Contact.handleSubmit_start.
  destruct (truthy_str (Field.value (email (formState st)))) eqn:Te;
    [|discriminate].
  destruct (Regex.test _ _) eqn:Re; [|discriminate].
  destruct (truthy_str (Field.value (message (formState st)))) eqn:Tm;
    [|discriminate].
  simpl. intros [= <- <-].
  apply truthy_str_true in Te, Tm. auto.
Qed.


(** ** Validation *)

(** C4. [handleSubmit] checks, in this order, that the email is not empty,
    that its lower-cased value matches the address pattern, and that the
    message is not empty. The first rule that fails puts its message in
    the error of its field and nothing else in the state changes, later
    rules are not applied, and no request is issued; when the three rules
    pass, one POST request carrying the two values is issued. *)
Theorem submit_validates_in_order
    (fetch : Request -> throws Response) (st : State) :
  let e := Field.value (email (formState st)) in
  let m := Field.value (message (formState st)) in
  let valid := Regex.test Regex.email_regex (toLowerCase e) in
  (e = [] ->
     handleSubmit fetch st
     = (setFormState
          {| email := {| Field.value := e;
                         Field.error := Some (lit "Oops! Email cannot be empty.") |};
             message := message (formState st) |}
          st,
        []))
  /\ (e <> [] -> valid = false ->
        handleSubmit fetch st
        = (setFormState
             {| email := {| Field.value := e;
                            Field.error :=
                              Some (lit "Please enter a valid email address") |};
                message := message (formState st) |}
             st,
           []))
  /\ (e <> [] -> valid = true -> m = [] ->
        handleSubmit fetch st
        = (setFormState
             {| email := email (formState st);
                message := {| Field.value := m;
                              Field.error :=
                                Some (lit "Oops! Message cannot be empty.") |} |}
             st,
           []))
  /\ (e <> [] -> valid = true -> m <> [] ->
        snd (handleSubmit fetch st)
        = [ {| url := baseUrl ++ lit "/api/send-email";
               method := lit "POST";
               headers := [ (lit "Content-Type", lit "application/json") ];
               body := Obj [ (lit "email", Str e); (lit "message", Str m) ] |} ]).
Proof.
  intros e m valid. subst e m valid.
  unfold Contact.handleSubmit, Contact.handleSubmit_start.
  split; [|split; [|split]].
  - intros E. apply truthy_str_false in E. rewrite E. reflexivity.
  - intros E V. apply truthy_str_true in E. rewrite E, V. reflexivity.
  - intros E V M. apply truthy_str_true in E. apply truthy_str_false in M.
    rewrite E, V, M. reflexivity.
  - intros E V M. apply truthy_str_true in E, M.
    rewrite E, V, M. reflexivity.
Qed.

(** ** After the request *)

(** C8, with the body of the response. For a submission that issues its request: if the
    request fails, the response is not 2xx, or the response is 2xx but its
    body is not JSON, the widget ends with the error banner "Failed to send
    message. Please try again later.", no success banner, the form as it
    was and [loading] false; if the response is 2xx with a JSON body, it
    ends with the success banner, no error banner, both fields cleared and
    [loading] false. *)
Theorem submission_outcome
    (fetch : Request -> throws Response) (st st' : State) (request : Request) :
  handleSubmit_start st = Fetching st' request ->
  let final := fst (handleSubmit fetch st) in
  ((exists x, fetch request = inl x)
   \/ (exists r, fetch request = inr r
                 /\ (ok r = false \/ exists x, json r = inl x)) ->
     error final = Some (lit "Failed to send message. Please try again later.")
     /\ success final = None
     /\ formState final = formState st
     /\ loading final = false
     /\ open final = open st)
  /\ (forall r data,
        fetch request = inr r -> ok r = true -> json r = inr data ->
        success final
        = Some (lit "Message sent successfully! I'll get back to you soon. "
                ++ rocket)
        /\ error final = None
        /\ formState final
           = {| email := {| Field.value := []; Field.error := Some [] |};
                message := {| Field.value := []; Field.error := Some [] |} |}
        /\ loading final = false
        /\ open final = open st).
Proof.
  intros S final. subst final. unfold Contact.handleSubmit. rewrite S.
  apply start_fetching in S as (-> & _). simpl fst. split.
  - intros F.
    assert (exists x, after_fetch (fetch request) = inl x) as (x & E).
    { destruct F as [(x & ->) | (r & -> & [K | (x & J)])].
      - exists x. reflexivity.
      - apply after_fetch_not_ok. exact K.
      - destruct (ok r) eqn:K; [|apply after_fetch_not_ok; exact K].
        exists x. unfold after_fetch, bind. rewrite K, J. reflexivity. }
    rewrite (settle_failure _ _ E). repeat split.
  - intros r data F K J.
    assert (exists u, after_fetch (fetch request) = inr u) as (u & E).
    { apply after_fetch_returns. eauto. }
    rewrite (settle_success _ _ E). repeat split.
Qed.

(** C9. A submission that does not succeed -- a rule of the validation
    fails, the request fails, or the response is not 2xx -- leaves both
    field values as they were; and if [handleSubmit] changes a value, the
    request was answered 2xx with a JSON body and both values are now
    empty. *)
Theorem failed_submission_keeps_values
    (fetch : Request -> throws Response) (st : State) :
  let values (s : State) :=
    (Field.value (email (formState s)), Field.value (message (formState s))) in
  let final := fst (handleSubmit fetch st) in
  (forall st', handleSubmit_start st = Aborted st' -> values final = values st)
  /\ (forall st' request,
        handleSubmit_start st = Fetching st' request ->
        (exists x, fetch request = inl x)
        \/ (exists r, fetch request = inr r /\ ok r = false) ->
        values final = values st)
  /\ (values final <> values st ->
      exists st' request r data,
        handleSubmit_start st = Fetching st' request
        /\ fetch request = inr r /\ ok r = true /\ json r = inr data
        /\ values final = ([], [])).
Proof.
  intros values final. subst values final. unfold Contact.handleSubmit.
  split; [|split].
  - intros st' S. rewrite S. simpl.
    destruct (start_aborted _ S) as [-> ->]. reflexivity.
  - intros st' request S F. rewrite S. simpl.
    assert (exists x, after_fetch (fetch request) = inl x) as (x & E).
    { destruct F as [(x & ->) | (r & -> & K)].
      - exists x. reflexivity.
      - apply after_fetch_not_ok. exact K. }
    rewrite (settle_failure _ _ E).
    apply start_fetching in S as (-> & _). reflexivity.
  - destruct (handleSubmit_start st) as [st'|st' request] eqn:S; simpl.
    + destruct (start_aborted _ S) as [-> ->]. intros N. destruct N. reflexivity.
    + destruct (after_fetch (fetch request)) as [x|u] eqn:E.
      * rewrite (settle_failure _ _ E).
        apply start_fetching in S as (-> & _).
        intros N. destruct N. reflexivity.
      * intros _.
        destruct (proj1 (after_fetch_returns (fetch request)) (ex_intro _ u E))
          as (r & data & F & K & J).
        exists st', request, r, data.
        rewrite (settle_success _ _ E). repeat split; assumption.
Qed.

End Widget.

(** ** The properties on the sample inputs *)

Import Samples.

#[local] Abbreviation submit :=
  (handleSubmit ascii_toLowerCase (Some (lit "production"))
     (Some (lit "https://romainboboe.com"))).

(** An empty form stops at the first rule, [not-an-email] at the second, an
    empty message at the third, and [a@b.com] with [hi] is posted. *)
Lemma submit_validates_in_order_witness :
  Field.error (email (formState (fst (submit accepted blank))))
  = Some (lit "Oops! Email cannot be empty.")
  /\ Field.error (message (formState (fst (submit accepted blank))))
     = None
  /\ snd (submit accepted blank) = []
  /\ submit accepted malformed
     = (setFormState
          {| email := {| Field.value := lit "not-an-email";
                         Field.error :=
                           Some (lit "Please enter a valid email address") |};
             message := {| Field.value := lit "hi"; Field.error := None |} |}
          malformed,
        [])
  /\ submit accepted no_text
     = (setFormState
          {| email := {| Field.value := lit "A@b.com"; Field.error := None |};
             message := {| Field.value := [];
                           Field.error :=
                             Some (lit "Oops! Message cannot be empty.") |} |}
          no_text,
        [])
  /\ snd (submit accepted complete)
     = [ {| url := lit "https://romainboboe.com/api/send-email";
            method := lit "POST";
            headers := [ (lit "Content-Type", lit "application/json") ];
            body := Samples.hi |} ].
Proof.
  pose proof (fun st =>
                submit_validates_in_order ascii_toLowerCase
                  (Some (lit "production")) (Some (lit "https://romainboboe.com"))
                  accepted st) as V.
  destruct (V blank) as (H1 & _).
  destruct (V malformed) as (_ & H2 & _).
  destruct (V no_text) as (_ & _ & H3 & _).
  destruct (V complete) as (_ & _ & _ & H4).
  split; [|split; [|split; [|split; [|split]]]].
  - rewrite (H1 eq_refl). reflexivity.
  - rewrite (H1 eq_refl). reflexivity.
  - rewrite (H1 eq_refl). reflexivity.
  - apply H2; [discriminate | reflexivity].
  - apply H3; [discriminate | reflexivity | reflexivity].
  - apply H4; [discriminate | reflexivity | discriminate].
Defined.

(** The sample form passes the three rules and is posted. *)
Lemma sample_is_posted :
  Contact.handleSubmit_start ascii_toLowerCase (Some (lit "production"))
    (Some (lit "https://romainboboe.com")) complete
  = Fetching
      (setSuccess None (setError None (setLoading true complete)))
      posted.
Proof. reflexivity. Defined.

Lemma submission_outcome_witness :
  (let final := fst (submit accepted complete) in
   success final
   = Some (lit "Message sent successfully! I'll get back to you soon. " ++ rocket)
   /\ formState final = empty_form
   /\ loading final = false)
  /\ (let final := fst (submit rejected complete) in
      error final = Some (lit "Failed to send message. Please try again later.")
      /\ loading final = false)
  /\ (let final := fst (submit offline complete) in
      error final = Some (lit "Failed to send message. Please try again later.")
      /\ loading final = false).
Proof.
  pose proof (fun fetch =>
                submission_outcome ascii_toLowerCase
                  (Some (lit "production")) (Some (lit "https://romainboboe.com"))
                  fetch complete sample_is_posted) as V.
  split; [|split].
  - destruct (proj2 (V accepted) _ _ eq_refl eq_refl eq_refl)
      as (Hs & _ & Hf & Hl & _).
    repeat split; assumption.
  - destruct (proj1 (V rejected)) as (He & _ & _ & Hl & _).
    { right. eexists. split; [reflexivity | left; reflexivity]. }
    split; assumption.
  - destruct (proj1 (V offline)) as (He & _ & _ & Hl & _).
    { left. eexists. reflexivity. }
    split; assumption.
Defined.

(** C8 needs a JSON body: a 2xx response whose body is not JSON is a
    successful response, yet the widget shows the error banner, shows no
    success banner and keeps both values. *)
Lemma successful_response_without_json :
  (exists r, html_page posted = inr r /\ ok r = true)
  /\ snd (submit html_page complete) = [posted]
  /\ (let final := fst (submit html_page complete) in
      success final = None
      /\ error final = Some (lit "Failed to send message. Please try again later.")
      /\ Field.value (email (formState final)) = lit "a@b.com"
      /\ Field.value (message (formState final)) = lit "hi").
Proof.
  split; [eexists; split; reflexivity|].
  repeat split.
Qed.

Lemma failed_submission_keeps_values_witness :
  (let final := fst (submit accepted malformed) in
   Field.value (email (formState final)) = lit "not-an-email"
   /\ Field.value (message (formState final)) = lit "hi")
  /\ (let final := fst (submit rejected complete) in
      Field.value (email (formState final)) = lit "a@b.com"
      /\ Field.value (message (formState final)) = lit "hi")
  /\ (let final := fst (submit offline complete) in
      Field.value (email (formState final)) = lit "a@b.com"
      /\ Field.value (message (formState final)) = lit "hi").
Proof.
  pose proof (fun fetch st =>
                failed_submission_keeps_values ascii_toLowerCase
                  (Some (lit "production")) (Some (lit "https://romainboboe.com"))
                  fetch st) as V.
  split; [|split].
  - pose proof (proj1 (V accepted malformed) _ eq_refl) as H.
    split; [exact (f_equal fst H) | exact (f_equal snd H)].
  - pose proof (proj1 (proj2 (V rejected complete))
                  _ _ sample_is_posted
                  (or_intror (ex_intro _ _ (conj eq_refl eq_refl)))) as H.
    split; [exact (f_equal fst H) | exact (f_equal snd H)].
  - pose proof (proj1 (proj2 (V offline complete))
                  _ _ sample_is_posted
                  (or_introl (ex_intro _ _ eq_refl))) as H.
    split; [exact (f_equal fst H) | exact (f_equal snd H)].
Defined.

End ContactSpec.

(* ===================================================================== *)
(** * The endpoint: further properties *)
(* ===================================================================== *)

Module SendEmailMore.
Import JS JSFacts SendEmail SendEmailSpec.

Section Route.

Variable process_env : ProcessEnv.
Variable new_Resend : str -> throws Resend.
Variable emails_send : Resend -> EmailData -> throws ResendEmailResponse.

#[local] Abbreviation handler := (handler process_env new_Resend emails_send).
#[local] Abbreviation process := (process process_env new_Resend emails_send).
#[local] Abbreviation try_block := (try_block process_env emails_send).
#[local] Abbreviation cors := (cors process_env).
#[local] Abbreviation resend := (resend process_env new_Resend).
#[local] Abbreviation emailData := (emailData process_env).
#[local] Abbreviation RESEND_API_KEY := (RESEND_API_KEY process_env).
#[local] Abbreviation CONTACT_FORM_EMAIL := (CONTACT_FORM_EMAIL process_env).
#[local] Abbreviation IS_DEVELOPMENT := (IS_DEVELOPMENT process_env).
#[local] Abbreviation html_template := (html_template process_env).

(** ** The [try] block, case by case *)

(** What the block does is fixed by the request body and the environment;
    the response object only contributes what was set on it before. *)
Lemma try_block_shape (client : Resend) (req : NextApiRequest) :
  exists (calls : list EmailData) (o : throws (N * Val)),
    forall res,
      try_block client req res
      = (calls,
         match o with
         | inl x => inl x
         | inr (code, v) => inr (json v (status code res))
         end).
Proof.
  unfold SendEmail.try_block, lift, act_bind, act_ret.
  destruct (destructure_body (body req)) as [x|[email msg]];
    [exists [], (inl x); reflexivity|].
  cbv beta iota zeta delta [fst snd].
  destruct (negb (truthy email) || negb (truthy msg)).
  { exists [], (inr (400%N, Obj [ field "message" "Email and message are required" ])).
    reflexivity. }
  destruct CONTACT_FORM_EMAIL as [recipient|].
  2: { exists [], (inr (500%N, Obj [ field "message" "Email service configuration error";
                                    field "details" "Recipient email is missing" ])).
       reflexivity. }
  destruct (truthy_str recipient).
  2: { exists [], (inr (500%N, Obj [ field "message" "Email service configuration error";
                                    field "details" "Recipient email is missing" ])).
       reflexivity. }
  destruct (SendEmail.emailData process_env recipient email msg) as [x|d];
    [exists [], (inl x); reflexivity|].
  destruct (emails_send client d) as [x|r];
    [exists [d], (inl x); reflexivity|].
  destruct (error r) as [e|].
  - exists [d], (inr (500%N, failed_to_send (SendEmail.message e))). reflexivity.
  - exists [d], (inr (200%N, sent_successfully r)). reflexivity.
Qed.

(** The block calls the provider only after every check has passed and the
    message is composed, and then once. *)
Lemma try_block_calls (client : Resend) (req : NextApiRequest)
    (res : NextApiResponse) (d : EmailData) :
  In d (fst (try_block client req res)) ->
  exists recipient email msg,
    fst (try_block client req res) = [d]
    /\ get (body req) "email" = inr email /\ truthy email = true
    /\ get (body req) "message" = inr msg /\ truthy msg = true
    /\ CONTACT_FORM_EMAIL = Some recipient /\ truthy_str recipient = true
    /\ emailData recipient email msg = inr d.
Proof.
  unfold SendEmail.try_block, lift, act_bind, act_ret.
  destruct (destructure_body (body req)) as [x|[email msg]] eqn:D;
    [intros []|].
  apply destructure_body_returns in D as [Ge Gm].
  cbv beta iota zeta delta [fst snd].
  destruct (truthy email) eqn:Te; [|intros []].
  destruct (truthy msg) eqn:Tm; [|intros []]. simpl negb. simpl orb.
  cbv iota.
  destruct CONTACT_FORM_EMAIL as [recipient|]; [|intros []].
  destruct (truthy_str recipient) eqn:Tr; [|intros []].
  destruct (SendEmail.emailData process_env recipient email msg) as [x|d'] eqn:E;
    [intros []|].
  destruct (emails_send client d') as [x|r]; [|destruct (error r)]; simpl;
    (intros [<-|[]]; exists recipient, email, msg; auto 10).
Qed.


(** The four ways through the block: the body cannot be read; a field is
    missing; no recipient is configured; or the checks pass and the block
    composes and sends. *)
Lemma try_block_cases (client : Resend) (req : NextApiRequest)
    (res : NextApiResponse) :
  (exists x, try_block client req res = ([], inl x)
             /\ (body req = Undefined \/ body req = Null))
  \/ (exists email msg,
        get (body req) "email" = inr email
        /\ get (body req) "message" = inr msg
        /\ (truthy email = false \/ truthy msg = false)
        /\ try_block client req res
           = ([], inr (json (Obj [ field "message"
                                     "Email and message are required" ])
                         (status 400 res))))
  \/ (exists email msg,
        get (body req) "email" = inr email /\ truthy email = true
        /\ get (body req) "message" = inr msg /\ truthy msg = true
        /\ (CONTACT_FORM_EMAIL = None \/ CONTACT_FORM_EMAIL = Some [])
        /\ try_block client req res
           = ([], inr (json (Obj [ field "message"
                                     "Email service configuration error";
                                   field "details" "Recipient email is missing" ])
                         (status 500 res))))
  \/ (exists email msg recipient,
        get (body req) "email" = inr email /\ truthy email = true
        /\ get (body req) "message" = inr msg /\ truthy msg = true
        /\ CONTACT_FORM_EMAIL = Some recipient /\ truthy_str recipient = true).
Proof.
  destruct (body req) as [| |b|n|s|items|props] eqn:B.
  1: { left. eexists. unfold SendEmail.try_block. rewrite B.
       split; [reflexivity | auto]. }
  1: { left. eexists. unfold SendEmail.try_block. rewrite B.
       split; [reflexivity | auto]. }
  all: right.
  all: destruct (get (body req) "email") as [x|email] eqn:Ge;
    [rewrite B in Ge; discriminate|].
  all: destruct (get (body req) "message") as [x|msg] eqn:Gm;
    [rewrite B in Gm; discriminate|].
  all: rewrite <- B.
  all: destruct (truthy email) eqn:Te.
  all: try (left; exists email, msg; repeat split; auto;
            unfold SendEmail.try_block;
            rewrite (destructure_body_reads _ Ge Gm);
            cbv beta iota zeta delta [lift act_bind fst snd];
            rewrite Te; reflexivity).
  all: destruct (truthy msg) eqn:Tm.
  all: try (left; exists email, msg; repeat split; auto;
            unfold SendEmail.try_block;
            rewrite (destructure_body_reads _ Ge Gm);
            cbv beta iota zeta delta [lift act_bind fst snd];
            rewrite Te, Tm; reflexivity).
  all: right.
  all: destruct CONTACT_FORM_EMAIL as [[|c recipient]|] eqn:Hr.
  all: try (left; exists email, msg; repeat split; auto;
            unfold SendEmail.try_block;
            rewrite (destructure_body_reads _ Ge Gm);
            cbv beta iota zeta delta [lift act_bind fst snd];
            rewrite Te, Tm, Hr; reflexivity).
  all: right; exists email, msg, (c :: recipient); repeat split; auto.
Qed.

Lemma startsWith_re_truthy (k : str) :
  startsWith k (lit "re_") = true -> truthy_str k = true.
Proof. destruct k; [discriminate | reflexivity]. Qed.

(** The client is missing exactly when no key starting with [re_] is set
    for which the constructor returns: the empty key, which the first
    check of the initialisation rejects, does not start with [re_]
    either. *)
Lemma resend_missing :
  resend = None <->
  ~ exists k client,
      RESEND_API_KEY = Some k /\ startsWith k (lit "re_") = true
      /\ new_Resend k = inr client.
Proof.
  split.
  - intros R (k & client & K & P & C).
    assert (resend = Some client) as R'.
    { apply resend_initialized. exists k.
      auto using startsWith_re_truthy. }
    congruence.
  - intros N. destruct resend as [client|] eqn:R; [|reflexivity].
    apply resend_initialized in R as (k & K & _ & P & C).
    destruct N. eauto.
Qed.

(** ** Readiness and configuration *)

(** X1. A POST request gets the 500 "Email service not initialized"
    response exactly when the module-level initialisation left no client:
    [RESEND_API_KEY] is unset, or does not start with [re_], or the
    constructor threw on it. No other path of the handler produces that
    response. *)
Theorem not_initialized_exactly_without_client
    (req : NextApiRequest) (res : NextApiResponse) :
  method req = Some (lit "POST") ->
  (replies (snd (handler req res)) 500
     (Json (Obj [ (lit "success", Bool false);
                  (lit "message", Str (lit "Email service not initialized"));
                  (lit "error", Str (lit "Internal server error")) ]))
   <-> ~ exists k client,
         RESEND_API_KEY = Some k /\ startsWith k (lit "re_") = true
         /\ new_Resend k = inr client).
Proof.
  intros M. rewrite <- resend_missing, (handler_post _ _ _ _ _ M).
  unfold SendEmail.process. destruct resend as [client|].
  - split; [|discriminate]. intros [_ P]. exfalso. revert P.
    destruct (try_block_cases client req (cors req res))
      as [(x & -> & _)
         |[(email & msg & _ & _ & _ & ->)
          |[(email & msg & _ & _ & _ & _ & _ & ->)
           |(email & msg & recipient & Ge & Te & Gm & Tm & Hr & Tr)]]];
      try discriminate.
    rewrite (try_block_validated _ _ client req _ Ge Te Gm Tm Hr Tr).
    destruct (emailData recipient email msg) as [x|d]; [discriminate|].
    destruct (emails_send client d) as [x|r]; [discriminate|].
    destruct (error r); discriminate.
  - split; [reflexivity|]. intros _. split; reflexivity.
Qed.

(** X2. With the client initialized and both fields present, a POST
    request is answered 500 "Email service configuration error" /
    "Recipient email is missing" when [CONTACT_FORM_EMAIL] is unset or
    empty, and nothing is sent -- in development mode too, where the
    configured recipient would not be used. *)
Theorem recipient_is_required
    (req : NextApiRequest) (res : NextApiResponse) (client : Resend)
    (email msg : Val) :
  method req = Some (lit "POST") ->
  resend = Some client ->
  get (body req) "email" = inr email -> truthy email = true ->
  get (body req) "message" = inr msg -> truthy msg = true ->
  CONTACT_FORM_EMAIL = None \/ CONTACT_FORM_EMAIL = Some [] ->
  fst (handler req res) = []
  /\ replies (snd (handler req res)) 500
       (Json (Obj [ (lit "message",
                     Str (lit "Email service configuration error"));
                    (lit "details", Str (lit "Recipient email is missing")) ])).
Proof.
  intros M R Ge Te Gm Tm Hr. rewrite (handler_post _ _ _ _ _ M).
  unfold SendEmail.process. rewrite R. unfold SendEmail.try_block.
  rewrite (destructure_body_reads _ Ge Gm).
  cbv beta iota zeta delta [lift act_bind fst snd]. rewrite Te, Tm.
  destruct Hr as [-> | ->]; repeat split.
Qed.

(** ** The provider *)

(** X3. The handler calls the provider at most once per request, and only
    for a POST request, with the client initialized, both fields truthy
    and a recipient configured; the argument of the call is the message
    composed from the request. *)
Theorem provider_called_once_after_checks
    (req : NextApiRequest) (res : NextApiResponse) (d : EmailData) :
  In d (fst (handler req res)) ->
  fst (handler req res) = [d]
  /\ method req = Some (lit "POST")
  /\ exists client recipient email msg,
       resend = Some client
       /\ get (body req) "email" = inr email /\ truthy email = true
       /\ get (body req) "message" = inr msg /\ truthy msg = true
       /\ CONTACT_FORM_EMAIL = Some recipient /\ truthy_str recipient = true
       /\ emailData recipient email msg = inr d.
Proof.
  unfold SendEmail.handler.
  destruct (method_is req "OPTIONS"); [intros []|].
  destruct (method_is req "POST") eqn:M; [|intros []].
  apply method_is_eq in M. simpl negb. cbv iota.
  unfold SendEmail.process. destruct resend as [client|]; [|intros []].
  assert (F : fst (match try_block client req (cors req res) with
                   | (calls, inl error) =>
                       (calls,
                        json (failed_to_send (err_message error))
                          (status 500 (cors req res)))
                   | (calls, inr sent) => (calls, sent)
                   end)
              = fst (try_block client req (cors req res))).
  { destruct (try_block client req (cors req res)) as [calls [x|sent]];
      reflexivity. }
  rewrite F. intros H.
  destruct (try_block_calls _ _ _ _ H)
    as (recipient & email & msg & Hc & Rest).
  split; [exact Hc|]. split; [exact M|].
  exists client, recipient, email, msg. split; [reflexivity | exact Rest].
Qed.

(** X4. A POST request is answered 200 only after the provider was called
    and resolved without an error; the body then carries the id of the
    provider's result. *)
Theorem ok_only_after_delivery
    (req : NextApiRequest) (res : NextApiResponse) :
  method req = Some (lit "POST") ->
  statusCode (snd (handler req res)) = 200%N ->
  exists client d r,
    resend = Some client
    /\ fst (handler req res) = [d]
    /\ emails_send client d = inr r /\ error r = None
    /\ payload (snd (handler req res))
       = Json (Obj [ (lit "success", Bool true);
                     (lit "message", Str (lit "Email sent successfully"));
                     (lit "id", match data r with
                                | Some i => Str (id i)
                                | None => Undefined
                                end) ]).
Proof.
  intros M. rewrite (handler_post _ _ _ _ _ M).
  unfold SendEmail.process. destruct resend as [client|]; [|discriminate].
  destruct (try_block_cases client req (cors req res))
    as [(x & -> & _)
       |[(email & msg & _ & _ & _ & ->)
        |[(email & msg & _ & _ & _ & _ & _ & ->)
         |(email & msg & recipient & Ge & Te & Gm & Tm & Hr & Tr)]]];
    try discriminate.
  rewrite (try_block_validated _ _ client req _ Ge Te Gm Tm Hr Tr).
  destruct (emailData recipient email msg) as [x|d]; [discriminate|].
  destruct (emails_send client d) as [x|r] eqn:S; [discriminate|].
  destruct (error r) eqn:Er; [discriminate|]. intros _.
  exists client, d, r. repeat split; auto.
Qed.


(** ** Bodies that are not objects *)

(** X5. With the client initialized, a POST request whose parsed body is
    [null] or [undefined] makes the destructuring of the body throw: the
    catch answers 500 "Failed to send email" with the message of that
    exception, "Cannot destructure property 'email' of 'req.body' as it is
    null." or "... undefined.", and nothing is sent. A body that is a
    boolean, a number, a string or an array has no [email] and is answered
    400 like an empty object. *)
Theorem body_that_is_no_object
    (req : NextApiRequest) (res : NextApiResponse) (client : Resend) :
  method req = Some (lit "POST") ->
  resend = Some client ->
  (body req = Null ->
     fst (handler req res) = []
     /\ replies (snd (handler req res)) 500
          (Json (Obj [ (lit "success", Bool false);
                       (lit "message", Str (lit "Failed to send email"));
                       (lit "error",
                        Str (lit "Cannot destructure property 'email' of 'req.body' as it is null.")) ])))
  /\ (body req = Undefined ->
      fst (handler req res) = []
      /\ replies (snd (handler req res)) 500
           (Json (Obj [ (lit "success", Bool false);
                        (lit "message", Str (lit "Failed to send email"));
                        (lit "error",
                         Str (lit "Cannot destructure property 'email' of 'req.body' as it is undefined.")) ])))
  /\ (match body req with
      | Bool _ | Num _ | Str _ | Arr _ => True
      | Undefined | Null | Obj _ => False
      end ->
      fst (handler req res) = []
      /\ replies (snd (handler req res)) 400
           (Json (Obj [ (lit "message",
                         Str (lit "Email and message are required")) ]))).
Proof.
  intros M R. rewrite (handler_post _ _ _ _ _ M). unfold SendEmail.process.
  rewrite R. unfold SendEmail.try_block. split; [|split].
  - intros B; rewrite B; repeat split.
  - intros B; rewrite B; repeat split.
  - destruct (body req); intros []; repeat split.
Qed.

(** ** The origin *)

(** X6. The Origin header decides the CORS headers and nothing else: the
    same request sent from any other origin, allowed or not, leads to the
    same provider calls, the same status and the same body. *)
Theorem origin_only_changes_headers
    (req : NextApiRequest) (res : NextApiResponse) (o : option str) :
  let req' :=
    {| method := method req; headers := {| origin := o |}; body := body req |} in
  fst (handler req' res) = fst (handler req res)
  /\ statusCode (snd (handler req' res)) = statusCode (snd (handler req res))
  /\ payload (snd (handler req' res)) = payload (snd (handler req res)).
Proof.
  intros req'. unfold SendEmail.handler.
  change (method_is req' "OPTIONS") with (method_is req "OPTIONS").
  change (method_is req' "POST") with (method_is req "POST").
  destruct (method_is req "OPTIONS"); [repeat split|].
  destruct (method_is req "POST"); [|repeat split].
  simpl negb. cbv iota. unfold SendEmail.process.
  destruct resend as [client|]; [|repeat split].
  destruct (try_block_shape client req) as (calls & out & T).
  change (try_block client req' (cors req' res))
    with (try_block client req (cors req' res)).
  rewrite !T. destruct out as [x|[code v]]; repeat split.
Qed.

(** ** String fields *)

(** X7. The endpoint checks no format: with the client initialized and a
    recipient configured, every POST request whose [email] and [message]
    are non-empty strings -- whatever they contain -- has its message
    composed and handed to the provider exactly once, with [replyTo] the
    [email] as received, and is answered 200 or 500. *)
Theorem string_fields_reach_provider
    (req : NextApiRequest) (res : NextApiResponse) (client : Resend)
    (recipient : str) (props : list (str * Val)) (e m : str) :
  method req = Some (lit "POST") ->
  resend = Some client ->
  CONTACT_FORM_EMAIL = Some recipient -> recipient <> [] ->
  body req = Obj props ->
  own props (lit "email") = Some (Str e) -> e <> [] ->
  own props (lit "message") = Some (Str m) -> m <> [] ->
  exists d,
    fst (handler req res) = [d]
    /\ replyTo d = Str e
    /\ html d = html_template e (replace_newlines m (lit "<br>"))
    /\ (statusCode (snd (handler req res)) = 200
        \/ statusCode (snd (handler req res)) = 500)%N.
Proof.
  intros M R Hr Nr B Pe Ne Pm Nm.
  assert (Ge : get (body req) "email" = inr (Str e))
    by (rewrite B; simpl; rewrite Pe; reflexivity).
  assert (Gm : get (body req) "message" = inr (Str m))
    by (rewrite B; simpl; rewrite Pm; reflexivity).
  assert (Te : truthy (Str e) = true) by (destruct e; [destruct Ne|]; reflexivity).
  assert (Tm : truthy (Str m) = true) by (destruct m; [destruct Nm|]; reflexivity).
  assert (Tr : truthy_str recipient = true) by (destruct recipient; [destruct Nr|]; reflexivity).
  destruct (emailData_returns process_env recipient (Str e) m eq_refl)
    as (d & E & Hh).
  destruct (emailData_fields _ _ _ _ E) as (Hreply & _).
  exists d. rewrite (handler_post _ _ _ _ _ M). unfold SendEmail.process.
  rewrite R, (try_block_validated _ _ client req _ Ge Te Gm Tm Hr Tr), E.
  destruct (emails_send client d) as [x|r]; [|destruct (error r)];
    repeat split; auto.
Qed.

(** The template puts its two arguments between three fragments. *)
Lemma html_template_split :
  exists pre mid post : str,
    forall email_text message_html,
      html_template email_text message_html
      = pre ++ email_text ++ mid ++ message_html ++ post.
Proof.
  unfold SendEmail.html_template.
  do 3 eexists. intros email_text message_html.
  repeat rewrite <- app_assoc.
  rewrite (app_assoc _ _ (email_text ++ _)).
  rewrite (app_assoc _ _ (email_text ++ _)).
  rewrite (app_assoc _ _ (email_text ++ _)).
  rewrite (app_assoc _ _ (email_text ++ _)).
  reflexivity.
Qed.

Lemma replace_newlines_app (a b by_ : str) :
  replace_newlines (a ++ b) by_
  = replace_newlines a by_ ++ replace_newlines b by_.
Proof.
  induction a as [|c a IH]; simpl; [reflexivity|].
  destruct (N.eqb c 10); rewrite IH.
  - apply app_assoc.
  - reflexivity.
Qed.

Lemma replace_newlines_without (s by_ : str) :
  ~ In 10%N s -> replace_newlines s by_ = s.
Proof.
  induction s as [|c s IH]; simpl; [reflexivity|]. intros N.
  destruct (N.eqb_spec c 10) as [->|_].
  - destruct N. left. reflexivity.
  - f_equal. apply IH. intros F. apply N. right. exact F.
Qed.

(** X8. Nothing the submitter writes is escaped on its way into the mail:
    when a POST request with string fields is dispatched, the html handed
    to the provider contains the email as received, and every stretch of
    the message that has no line feed -- a tag, a script, an entity --
    exactly as it was typed. *)
Theorem markup_reaches_html
    (req : NextApiRequest) (res : NextApiResponse) (client : Resend)
    (recipient : str) (props : list (str * Val)) (e m : str) :
  method req = Some (lit "POST") ->
  resend = Some client ->
  CONTACT_FORM_EMAIL = Some recipient -> recipient <> [] ->
  body req = Obj props ->
  own props (lit "email") = Some (Str e) -> e <> [] ->
  own props (lit "message") = Some (Str m) -> m <> [] ->
  exists d,
    fst (handler req res) = [d]
    /\ (exists a b, html d = a ++ e ++ b)
    /\ (forall w,
          (exists u v, m = u ++ w ++ v) -> ~ In 10%N w ->
          exists a b, html d = a ++ w ++ b).
Proof.
  intros M R Hr Nr B Pe Ne Pm Nm.
  assert (Ge : get (body req) "email" = inr (Str e))
    by (rewrite B; simpl; rewrite Pe; reflexivity).
  assert (Gm : get (body req) "message" = inr (Str m))
    by (rewrite B; simpl; rewrite Pm; reflexivity).
  assert (Te : truthy (Str e) = true) by (destruct e; [destruct Ne|]; reflexivity).
  assert (Tm : truthy (Str m) = true) by (destruct m; [destruct Nm|]; reflexivity).
  assert (Tr : truthy_str recipient = true)
    by (destruct recipient; [destruct Nr|]; reflexivity).
  destruct (emailData_returns process_env recipient (Str e) m eq_refl)
    as (d & E & Hh).
  destruct html_template_split as (pre & mid & post & Hsplit).
  rewrite Hsplit in Hh.
  exists d. split; [|split].
  - rewrite (handler_post _ _ _ _ _ M). unfold SendEmail.process.
    rewrite R, (try_block_validated _ _ client req _ Ge Te Gm Tm Hr Tr), E.
    destruct (emails_send client d); reflexivity.
  - exists pre, (mid ++ replace_newlines m (lit "<br>") ++ post). exact Hh.
  - intros w (u & v & ->) Nw.
    rewrite !replace_newlines_app in Hh.
    rewrite (@replace_newlines_without w (lit "<br>") Nw) in Hh.
    exists (pre ++ e ++ mid ++ replace_newlines u (lit "<br>")),
           (replace_newlines v (lit "<br>") ++ post).
    rewrite Hh. repeat rewrite <- app_assoc. reflexivity.
Qed.

(** X9. [message.replace(/\n/g, '<br>')] on a string always returns; the
    result holds no line feed, is three code units longer for every line
    feed of the message, and is the message itself when that has no line
    feed. *)
Theorem message_line_breaks (s : str) :
  message_replace (Str s) = inr (replace_newlines s (lit "<br>"))
  /\ ~ In 10%N (replace_newlines s (lit "<br>"))
  /\ List.length (replace_newlines s (lit "<br>"))
     = (List.length s + 3 * count_occ N.eq_dec s 10%N)%nat
  /\ (~ In 10%N s -> replace_newlines s (lit "<br>") = s).
Proof.
  split; [reflexivity|].
  induction s as [|c s (IH1 & IH2 & IH3)]; simpl.
  - repeat split; auto.
  - destruct (N.eqb_spec c 10) as [->|Nc].
    + destruct (N.eq_dec 10 10) as [_|F]; [|destruct F; reflexivity].
      split; [|split].
      * simpl. intros [F|[F|[F|[F|F]]]]; try discriminate. exact (IH1 F).
      * simpl. rewrite IH2. lia.
      * intros F. destruct F. left. reflexivity.
    + destruct (N.eq_dec c 10) as [F|_]; [contradiction|].
      split; [|split].
      * intros [F|F]; [congruence | exact (IH1 F)].
      * simpl. rewrite IH2. reflexivity.
      * intros F. f_equal. apply IH3. intros G. apply F. right. exact G.
Qed.

End Route.

(** ** On the sample inputs *)

Import Samples MoreSamples.

(** A key without the prefix, a key on which the constructor throws, and
    a key with which the client is built. *)
Lemma not_initialized_exactly_without_client_witness :
  replies
    (snd (handler malformed_key connects delivers (request "POST" None hi)
            new_response))
    500
    (Json (Obj [ (lit "success", Bool false);
                 (lit "message", Str (lit "Email service not initialized"));
                 (lit "error", Str (lit "Internal server error")) ]))
  /\ replies
       (snd (handler snowman_key connects delivers (request "POST" None hi)
               new_response))
       500
       (Json (Obj [ (lit "success", Bool false);
                    (lit "message", Str (lit "Email service not initialized"));
                    (lit "error", Str (lit "Internal server error")) ]))
  /\ ~ replies
       (snd (handler production connects refuses (request "POST" None hi)
               new_response))
       500
       (Json (Obj [ (lit "success", Bool false);
                    (lit "message", Str (lit "Email service not initialized"));
                    (lit "error", Str (lit "Internal server error")) ])).
Proof.
  split; [|split].
  - apply (proj2 (not_initialized_exactly_without_client malformed_key
                    connects delivers (request "POST" None hi) new_response
                    eq_refl)).
    intros (k & c & K & P & _). injection K as <-. discriminate.
  - apply (proj2 (not_initialized_exactly_without_client snowman_key
                    connects delivers (request "POST" None hi) new_response
                    eq_refl)).
    intros (k & c & K & _ & C). injection K as <-. discriminate.
  - intros H.
    apply (proj1 (not_initialized_exactly_without_client production
                    connects refuses (request "POST" None hi) new_response
                    eq_refl) H).
    exists (lit "re_123"), client. repeat split.
Defined.

Lemma recipient_is_required_witness :
  fst (handler development_no_recipient connects delivers (request "POST" None hi)
         new_response) = []
  /\ replies
       (snd (handler development_no_recipient connects delivers (request "POST" None hi)
               new_response))
       500
       (Json (Obj [ (lit "message",
                     Str (lit "Email service configuration error"));
                    (lit "details", Str (lit "Recipient email is missing")) ])).
Proof.
  exact (recipient_is_required development_no_recipient connects delivers
           (request "POST" None hi) new_response (client := client)
           eq_refl eq_refl eq_refl eq_refl eq_refl eq_refl
           (or_introl eq_refl)).
Defined.

Lemma provider_called_once_after_checks_witness :
  fst (handler production connects delivers (request "POST" None hi) new_response)
  = [composed production]
  /\ method (request "POST" None hi) = Some (lit "POST").
Proof.
  destruct (provider_called_once_after_checks production connects delivers
              (request "POST" None hi) new_response (composed production)
              (or_introl eq_refl))
    as (H1 & H2 & _).
  split; assumption.
Defined.

Lemma ok_only_after_delivery_witness :
  exists c d r,
    resend production connects = Some c
    /\ fst (handler production connects delivers (request "POST" None hi) new_response)
       = [d]
    /\ delivers c d = inr r /\ error r = None
    /\ payload
         (snd (handler production connects delivers (request "POST" None hi)
                 new_response))
       = Json (Obj [ (lit "success", Bool true);
                     (lit "message", Str (lit "Email sent successfully"));
                     (lit "id", match data r with
                                | Some i => Str (id i)
                                | None => Undefined
                                end) ]).
Proof.
  exact (ok_only_after_delivery production connects delivers
           (request "POST" None hi) new_response eq_refl eq_refl).
Defined.

Lemma body_that_is_no_object_witness :
  replies
    (snd (handler production connects delivers (request "POST" None Null)
            new_response))
    500
    (Json (Obj [ (lit "success", Bool false);
                 (lit "message", Str (lit "Failed to send email"));
                 (lit "error",
                  Str (lit "Cannot destructure property 'email' of 'req.body' as it is null.")) ]))
  /\ replies
       (snd (handler production connects delivers
               (request "POST" None Undefined) new_response))
       500
       (Json (Obj [ (lit "success", Bool false);
                    (lit "message", Str (lit "Failed to send email"));
                    (lit "error",
                     Str (lit "Cannot destructure property 'email' of 'req.body' as it is undefined.")) ]))
  /\ replies
       (snd (handler production connects delivers
               (request "POST" None (Str (lit "email=a@b.com"))) new_response))
       400
       (Json (Obj [ (lit "message",
                     Str (lit "Email and message are required")) ])).
Proof.
  split; [|split].
  - exact (proj2 (proj1 (body_that_is_no_object production connects delivers
                           (request "POST" None Null) new_response
                           (client := client) eq_refl eq_refl)
                    eq_refl)).
  - exact (proj2 (proj1 (proj2 (body_that_is_no_object production connects
                                  delivers (request "POST" None Undefined)
                                  new_response (client := client)
                                  eq_refl eq_refl))
                    eq_refl)).
  - exact (proj2 (proj2 (proj2 (body_that_is_no_object production connects
                                  delivers
                                  (request "POST" None (Str (lit "email=a@b.com")))
                                  new_response (client := client)
                                  eq_refl eq_refl))
                    I)).
Defined.

Lemma string_fields_reach_provider_witness :
  exists d,
    fst (handler production connects delivers (request "POST" None markup) new_response)
    = [d]
    /\ replyTo d = Str (lit "not-an-email")
    /\ html d
       = html_template production (lit "not-an-email")
           (lit "<b>hi</b>" ++ lit "<br>" ++ lit "there").
Proof.
  destruct (string_fields_reach_provider production connects delivers
              (request "POST" None markup) new_response
              (client := client) (recipient := lit "owner@example.com")
              (props := [ (lit "email", Str (lit "not-an-email"));
                          (lit "message", Str two_lines) ])
              (e := lit "not-an-email") (m := two_lines)
              eq_refl eq_refl eq_refl ltac:(discriminate) eq_refl
              eq_refl ltac:(discriminate) eq_refl ltac:(discriminate))
    as (d & H1 & H2 & H3 & _).
  exists d. repeat split; assumption.
Defined.

(** The tag of the sample message reaches the html as it is. *)
Lemma markup_reaches_html_witness :
  exists d,
    fst (handler production connects delivers (request "POST" None markup)
           new_response) = [d]
    /\ exists a b, html d = a ++ lit "<b>hi</b>" ++ b.
Proof.
  destruct (markup_reaches_html production connects delivers
              (request "POST" None markup) new_response
              (client := client) (recipient := lit "owner@example.com")
              (props := [ (lit "email", Str (lit "not-an-email"));
                          (lit "message", Str two_lines) ])
              (e := lit "not-an-email") (m := two_lines)
              eq_refl eq_refl eq_refl ltac:(discriminate) eq_refl
              eq_refl ltac:(discriminate) eq_refl ltac:(discriminate))
    as (d & H1 & _ & H3).
  exists d. split; [exact H1|].
  apply H3.
  - exists [], (10%N :: lit "there"). reflexivity.
  - intros F. repeat (destruct F as [F|F]; [discriminate|]). exact F.
Defined.

Lemma message_line_breaks_witness :
  replace_newlines (lit "hi") (lit "<br>") = lit "hi"
  /\ replace_newlines two_lines (lit "<br>")
     = lit "<b>hi</b><br>there".
Proof.
  split.
  - apply (proj2 (proj2 (proj2 (message_line_breaks (lit "hi"))))).
    intros [F|[F|[]]]; discriminate.
  - reflexivity.
Defined.

End SendEmailMore.

(* ===================================================================== *)
(** * The widget: further properties *)
(* ===================================================================== *)

Module ContactMore.
Import JS Contact Session ContactSpec.

Section Widget.

Variable toLowerCase : str -> str.
Variable NODE_ENV : option str.
Variable NEXT_PUBLIC_SITE_URL : option str.

#[local] Abbreviation handleSubmit_start :=
  (handleSubmit_start toLowerCase NODE_ENV NEXT_PUBLIC_SITE_URL).
#[local] Abbreviation handleSubmit :=
  (handleSubmit toLowerCase NODE_ENV NEXT_PUBLIC_SITE_URL).
#[local] Abbreviation baseUrl := (baseUrl NODE_ENV NEXT_PUBLIC_SITE_URL).
#[local] Abbreviation step := (step toLowerCase NODE_ENV NEXT_PUBLIC_SITE_URL).
#[local] Abbreviation run := (run toLowerCase NODE_ENV NEXT_PUBLIC_SITE_URL).

(** ** The round button *)

(** X10. [handleButtonClick] flips [open] and forgets everything else:
    whatever the state, the panel comes up blank -- empty inputs, no error
    lines, "Submit", no banner -- or goes away; a second click brings
    [open] back; and submitting right after a click stops at the first
    rule without a request. *)
Theorem click_resets_the_form
    (fetch : Request -> throws Response) (st : State) :
  render (handleButtonClick st)
  = (if open st then None
     else Some {| email_input := []; email_error := None;
                  message_input := []; message_error := None;
                  submit_label := lit "Submit";
                  success_banner := None; error_banner := None |})
  /\ open (handleButtonClick (handleButtonClick st)) = open st
  /\ handleSubmit fetch (handleButtonClick st)
     = (setFormState
          {| email := {| Field.value := [];
                         Field.error := Some (lit "Oops! Email cannot be empty.") |};
             message := {| Field.value := []; Field.error := Some [] |} |}
          (handleButtonClick st),
        []).
Proof.
  split; [|split].
  - unfold render, handleButtonClick. simpl. destruct (open st); reflexivity.
  - simpl. apply negb_involutive.
  - reflexivity.
Qed.

(** ** Requests *)

(** X11. Every request that [handleSubmit] issues is the only one of that
    submission, is a POST to [/api/send-email] under the base URL with a
    JSON content type, and carries the two values as typed -- the email is
    not lower-cased -- where the message is not empty and the lower-cased
    email is not empty and belongs to the language of the address
    pattern. *)
Theorem issued_request_is_well_formed
    (fetch : Request -> throws Response) (st : State) (request : Request) :
  In request (snd (handleSubmit fetch st)) ->
  let e := Field.value (email (formState st)) in
  let m := Field.value (message (formState st)) in
  snd (handleSubmit fetch st) = [request]
  /\ request
     = {| url := baseUrl ++ lit "/api/send-email";
          method := lit "POST";
          headers := [ (lit "Content-Type", lit "application/json") ];
          body := Obj [ (lit "email", Str e); (lit "message", Str m) ] |}
  /\ e <> [] /\ m <> []
  /\ Regex.matches Regex.email_regex (toLowerCase e).
Proof.
  unfold Contact.handleSubmit.
  destruct (handleSubmit_start st) as [st'|st' request'] eqn:S; [intros []|].
  simpl snd. intros H. destruct H as [<-|[]]. cbv zeta.
  apply start_fetching in S as (_ & Ne & Re & Nm & Hreq).
  apply RegexFacts.test_matches in Re. auto.
Qed.

(** X12. While a request is pending the panel shows the inputs and error
    lines as they were, "Submitting..." and no banner; and nothing blocks
    the button: pressing it again in that state issues the same request a
    second time. *)
Theorem pending_submission
    (st st' : State) (request : Request) :
  handleSubmit_start st = Fetching st' request ->
  render st'
  = (if open st then
       Some {| email_input := Field.value (email (formState st));
               email_error := shown (Field.error (email (formState st)));
               message_input := Field.value (message (formState st));
               message_error := shown (Field.error (message (formState st)));
               submit_label := lit "Submitting...";
               success_banner := None; error_banner := None |}
     else None)
  /\ handleSubmit_start st' = Fetching st' request.
Proof.
  intros S. pose proof S as S'.
  apply start_fetching in S' as (-> & Ne & Re & Nm & ->).
  split; [reflexivity|].
  unfold Contact.handleSubmit_start. simpl.
  apply truthy_str_true in Ne, Nm. rewrite Ne, Re, Nm. reflexivity.
Qed.


(** ** Sequences of events *)

Lemma run_invariant (P : State -> Prop) :
  (forall st e, P st -> P (step st e)) ->
  forall events st, P st -> P (run events st).
Proof.
  intros Hstep events. unfold Session.run.
  induction events as [|e events IH]; intros st H; simpl; [exact H|].
  apply IH, Hstep, H.
Qed.

(** What a submission that stops at a rule leaves in the form. *)
Lemma aborted_form (st st' : State) :
  handleSubmit_start st = Aborted st' ->
  let f := formState st in
  (Field.value (email f) = []
   /\ formState st' = with_email_error "Oops! Email cannot be empty." f)
  \/ (Field.value (email f) <> []
      /\ Regex.test Regex.email_regex (toLowerCase (Field.value (email f)))
         = false
      /\ formState st' = with_email_error "Please enter a valid email address" f)
  \/ (Field.value (message f) = []
      /\ formState st' = with_message_error "Oops! Message cannot be empty." f).
Proof.
  unfold Contact.handleSubmit_start.
  destruct (truthy_str (Field.value (email (formState st)))) eqn:Te.
  2: { intros [= <-]. left. apply truthy_str_false in Te. auto. }
  destruct (Regex.test _ _) eqn:Re.
  2: { intros [= <-]. right; left. apply truthy_str_true in Te. auto. }
  destruct (truthy_str (Field.value (message (formState st)))) eqn:Tm.
  - discriminate.
  - intros [= <-]. right; right. apply truthy_str_false in Tm. auto.
Qed.

Lemma aborted_frame (st st' : State) :
  handleSubmit_start st = Aborted st' ->
  open st' = open st /\ loading st' = loading st
  /\ success st' = success st /\ error st' = error st.
Proof.
  unfold Contact.handleSubmit_start.
  destruct (negb (truthy_str _)); [intros [= <-]; auto|].
  destruct (negb (Regex.test _ _)); [intros [= <-]; auto|].
  destruct (negb (truthy_str _)); [intros [= <-]; auto|].
  discriminate.
Qed.

Lemma step_errors (st : State) (e : Event) :
  errors_describe_values toLowerCase (formState st) ->
  errors_describe_values toLowerCase (formState (step st e)).
Proof.
  intros [He Hm]. destruct e as [[|] v|fetch|]; simpl.
  - split; [exact I | exact Hm].
  - split; [exact He | exact I].
  - unfold Contact.handleSubmit.
    destruct (handleSubmit_start st) as [st'|st' request] eqn:S; simpl.
    + destruct (aborted_form _ S) as [(V & ->)|[(V & R & ->)|(V & ->)]];
        split; simpl; auto.
    + apply start_fetching in S as (-> & _).
      unfold handleSubmit_settle.
      destruct (after_fetch (fetch request)); simpl.
      * split; assumption.
      * split; left; reflexivity.
  - split; left; reflexivity.
Qed.

Lemma step_at_rest (st : State) (e : Event) :
  at_rest st -> at_rest (step st e).
Proof.
  intros [L B]. destruct e as [[|] v|fetch|]; simpl.
  - split; assumption.
  - split; assumption.
  - unfold Contact.handleSubmit.
    destruct (handleSubmit_start st) as [st'|st' request] eqn:S; simpl.
    + destruct (aborted_frame _ S) as (_ & L' & S' & E').
      unfold at_rest. rewrite L', S', E'. split; assumption.
    + unfold handleSubmit_settle.
      apply start_fetching in S as (-> & _).
      destruct (after_fetch (fetch request)); split; simpl; auto.
  - split; [reflexivity | left; split; reflexivity].
Qed.

(** X13. Through any sequence of edits, submissions and clicks that starts
    at mount, an error line never goes stale: "Oops! Email cannot be
    empty." is there only while the email is empty, "Please enter a valid
    email address" only while the email is non-empty and fails the
    pattern, "Oops! Message cannot be empty." only while the message is
    empty; no other text ever appears in an error line. *)
Theorem error_lines_describe_values (events : list Event) :
  errors_describe_values toLowerCase (formState (run events initial)).
Proof.
  apply (run_invariant
           (fun st => errors_describe_values toLowerCase (formState st))).
  - exact step_errors.
  - split; left; reflexivity.
Qed.

(** X14. After any sequence of edits, settled submissions and clicks that
    starts at mount, nothing is loading and at most one banner is shown:
    an open panel shows "Submit", and never the success banner together
    with the error banner; a banner shown is one of the two fixed
    messages. *)
Theorem one_banner_at_rest (events : list Event) (panel : Panel) :
  render (run events initial) = Some panel ->
  submit_label panel = lit "Submit"
  /\ (success_banner panel = None \/ error_banner panel = None)
  /\ (forall t, success_banner panel = Some t ->
        t = lit "Message sent successfully! I'll get back to you soon. "
            ++ rocket)
  /\ (forall t, error_banner panel = Some t ->
        t = lit "Failed to send message. Please try again later.").
Proof.
  assert (A : at_rest (run events initial)).
  { apply (run_invariant at_rest).
    - exact step_at_rest.
    - split; [reflexivity | left; split; reflexivity]. }
  destruct A as [L B]. unfold render.
  destruct (open (run events initial)); [|discriminate].
  intros [= <-]. simpl. rewrite L.
  destruct B as [[-> ->]|[[-> ->]|[-> ->]]]; simpl;
    (split; [reflexivity|]); (split; [auto|]);
    split; intros t; try discriminate; intros [= <-]; reflexivity.
Qed.

End Widget.

(** ** On the sample inputs *)

Import Samples MoreSamples.

#[local] Abbreviation submit :=
  (handleSubmit ascii_toLowerCase (Some (lit "production"))
     (Some (lit "https://romainboboe.com"))).
#[local] Abbreviation session :=
  (run ascii_toLowerCase (Some (lit "production"))
     (Some (lit "https://romainboboe.com"))).

Lemma issued_request_is_well_formed_witness :
  snd (submit accepted complete) = [posted]
  /\ Regex.matches Regex.email_regex (lit "a@b.com").
Proof.
  destruct (issued_request_is_well_formed ascii_toLowerCase
              (Some (lit "production")) (Some (lit "https://romainboboe.com"))
              accepted complete posted (or_introl eq_refl))
    as (H1 & _ & _ & _ & H2).
  split; assumption.
Defined.

Lemma pending_submission_witness :
  let pending := setSuccess None (setError None (setLoading true complete)) in
  render pending
  = Some {| email_input := lit "a@b.com"; email_error := None;
            message_input := lit "hi"; message_error := None;
            submit_label := lit "Submitting...";
            success_banner := None; error_banner := None |}
  /\ snd (submit accepted pending) = [posted].
Proof.
  destruct (pending_submission ascii_toLowerCase
              (Some (lit "production")) (Some (lit "https://romainboboe.com"))
              complete sample_is_posted)
    as (H1 & H2).
  split; [exact H1|].
  unfold Contact.handleSubmit. rewrite H2. reflexivity.
Defined.

(** The sample visit ends on the success banner over a blank form. *)
Lemma one_banner_at_rest_witness :
  exists panel,
    render (session visit initial) = Some panel
    /\ submit_label panel = lit "Submit"
    /\ email_input panel = []
    /\ error_banner panel = None
    /\ success_banner panel
       = Some (lit "Message sent successfully! I'll get back to you soon. "
               ++ rocket).
Proof.
  assert (R : render (session visit initial)
              = Some {| email_input := []; email_error := None;
                        message_input := []; message_error := None;
                        submit_label := lit "Submit";
                        success_banner :=
                          Some (lit "Message sent successfully! I'll get back to you soon. "
                                ++ rocket);
                        error_banner := None |})
    by reflexivity.
  destruct (one_banner_at_rest ascii_toLowerCase
              (Some (lit "production")) (Some (lit "https://romainboboe.com"))
              visit R)
    as (H1 & _).
  eexists. split; [exact R|]. split; [exact H1|].
  split; [reflexivity|]. split; [reflexivity|].
  reflexivity.
Defined.

End ContactMore.

(* ===================================================================== *)
(** * The widget in front of the endpoint: properties *)
(* ===================================================================== *)

Module EndToEnd.
Import JS JSFacts Contact ContactSpec.

Section Flow.

Variable toLowerCase : str -> str.
Variable NODE_ENV : option str.
Variable NEXT_PUBLIC_SITE_URL : option str.
Variable process_env : SendEmail.ProcessEnv.
Variable new_Resend : str -> throws SendEmail.Resend.
Variable emails_send :
  SendEmail.Resend -> SendEmail.EmailData
  -> throws SendEmail.ResendEmailResponse.

#[local] Abbreviation handleSubmit_start :=
  (handleSubmit_start toLowerCase NODE_ENV NEXT_PUBLIC_SITE_URL).
#[local] Abbreviation handleSubmit :=
  (handleSubmit toLowerCase NODE_ENV NEXT_PUBLIC_SITE_URL).
#[local] Abbreviation handler :=
  (SendEmail.handler process_env new_Resend emails_send).
#[local] Abbreviation endpoint :=
  (Wire.endpoint process_env new_Resend emails_send).

(** How the widget ends on a response of the endpoint. *)
Lemma settle_on_status (res : SendEmail.NextApiResponse) (st : State) (v : Val) :
  SendEmail.payload res = SendEmail.Json v ->
  (SendEmail.statusCode res = 200%N ->
     handleSubmit_settle (inr (Wire.resolved res)) st
     = setLoading false
         (setFormState empty_form
            (setSuccess
               (Some (lit "Message sent successfully! I'll get back to you soon. "
                      ++ rocket))
               st)))
  /\ (SendEmail.statusCode res = 500%N ->
        handleSubmit_settle (inr (Wire.resolved res)) st
        = setLoading false
            (setError
               (Some (lit "Failed to send message. Please try again later."))
               st)).
Proof.
  intros P. split; intros C.
  - apply settle_success with (u := tt).
    unfold after_fetch, bind, Wire.resolved. simpl. rewrite C, P. reflexivity.
  - destruct (after_fetch_not_ok (Wire.resolved res)) as (x & E).
    { unfold Wire.resolved. simpl. rewrite C. reflexivity. }
    eapply settle_failure. exact E.
Qed.

(** X15. The two programs together, with the client initialized and a
    recipient configured: every request that the widget issues passes the
    endpoint's checks, whatever Origin header it carries, so the message
    is composed and handed to the provider exactly once, with the email as
    typed in [replyTo]. If the provider resolves without an error the
    endpoint answers 200 and the widget ends on the success banner with a
    blank form; if the provider reports an error or throws, the endpoint
    answers 500 and the widget ends on the error banner with the form as
    it was. *)
Theorem widget_request_is_served
    (o : option str) (st st' : State) (request : Request)
    (client : SendEmail.Resend) (recipient : str) :
  handleSubmit_start st = Fetching st' request ->
  SendEmail.resend process_env new_Resend = Some client ->
  SendEmail.CONTACT_FORM_EMAIL process_env = Some recipient ->
  recipient <> [] ->
  let served := handler (Wire.received o request) SendEmail.new_response in
  let final := fst (handleSubmit (endpoint o) st) in
  exists d,
    fst served = [d]
    /\ SendEmail.replyTo d = Str (Field.value (email (formState st)))
    /\ match emails_send client d with
       | inr r =>
           match SendEmail.error r with
           | None =>
               SendEmail.statusCode (snd served) = 200%N
               /\ success final
                  = Some (lit "Message sent successfully! I'll get back to you soon. "
                          ++ rocket)
               /\ error final = None
               /\ formState final = empty_form
               /\ loading final = false
           | Some _ =>
               SendEmail.statusCode (snd served) = 500%N
               /\ success final = None
               /\ error final
                  = Some (lit "Failed to send message. Please try again later.")
               /\ formState final = formState st
               /\ loading final = false
           end
       | inl _ =>
           SendEmail.statusCode (snd served) = 500%N
           /\ success final = None
           /\ error final
              = Some (lit "Failed to send message. Please try again later.")
           /\ formState final = formState st
           /\ loading final = false
       end.
Proof.
  intros S R Hr Nr served final. subst served final.
  unfold Contact.handleSubmit. rewrite S.
  apply start_fetching in S as (-> & Ne & _ & Nm & ->).
  set (e := Field.value (email (formState st))) in *.
  set (m := Field.value (message (formState st))) in *.
  set (req := Wire.received o _).
  assert (M : SendEmail.method req = Some (lit "POST")) by reflexivity.
  assert (Ge : get (SendEmail.body req) "email" = inr (Str e)) by reflexivity.
  assert (Gm : get (SendEmail.body req) "message" = inr (Str m)) by reflexivity.
  assert (Te : truthy (Str e) = true) by (destruct e; [destruct Ne|]; reflexivity).
  assert (Tm : truthy (Str m) = true) by (destruct m; [destruct Nm|]; reflexivity).
  assert (Tr : truthy_str recipient = true)
    by (destruct recipient; [destruct Nr|]; reflexivity).
  destruct (SendEmailSpec.emailData_returns process_env recipient (Str e) m eq_refl)
    as (d & E & _).
  destruct (SendEmailSpec.emailData_fields _ _ _ _ E) as (Hreply & _).
  exists d. unfold Wire.endpoint. fold req. simpl fst.
  rewrite (SendEmailSpec.handler_post _ _ _ _ _ M). unfold SendEmail.process.
  rewrite R,
    (SendEmailSpec.try_block_validated _ _ client req _ Ge Te Gm Tm Hr Tr), E.
  split; [destruct (emails_send client d); reflexivity|].
  split; [exact Hreply|].
  destruct (emails_send client d) as [x|r]; [|destruct (SendEmail.error r)];
    simpl snd.
  all: lazymatch goal with
       | |- context [handleSubmit_settle (inr (Wire.resolved ?res)) ?s] =>
           destruct (settle_on_status res s eq_refl) as [S200 S500]
       end.
  - rewrite (S500 eq_refl). repeat split.
  - rewrite (S500 eq_refl). repeat split.
  - rewrite (S200 eq_refl). repeat split.
Qed.

End Flow.

Import Samples.

(** The sample form, served in production by a provider that delivers and
    by one that refuses. *)
Lemma widget_request_is_served_witness :
  (let final :=
     fst (Contact.handleSubmit ascii_toLowerCase (Some (lit "production"))
            (Some (lit "https://romainboboe.com"))
            (Wire.endpoint production connects delivers
               (Some (lit "https://romainboboe.com")))
            complete) in
   success final
   = Some (lit "Message sent successfully! I'll get back to you soon. " ++ rocket)
   /\ formState final = empty_form)
  /\
  (let final :=
     fst (Contact.handleSubmit ascii_toLowerCase (Some (lit "production"))
            (Some (lit "https://romainboboe.com"))
            (Wire.endpoint production connects refuses
               (Some (lit "https://romainboboe.com")))
            complete) in
   error final = Some (lit "Failed to send message. Please try again later.")
   /\ formState final = formState complete).
Proof.
  split.
  - destruct (widget_request_is_served ascii_toLowerCase
                (Some (lit "production")) (Some (lit "https://romainboboe.com"))
                production connects delivers (Some (lit "https://romainboboe.com"))
                complete (client := client)
                (recipient := lit "owner@example.com")
                sample_is_posted eq_refl eq_refl ltac:(discriminate))
      as (d & _ & _ & H).
    simpl in H. destruct H as (_ & H1 & _ & H2 & _). split; assumption.
  - destruct (widget_request_is_served ascii_toLowerCase
                (Some (lit "production")) (Some (lit "https://romainboboe.com"))
                production connects refuses (Some (lit "https://romainboboe.com"))
                complete (client := client)
                (recipient := lit "owner@example.com")
                sample_is_posted eq_refl eq_refl ltac:(discriminate))
      as (d & _ & _ & H).
    simpl in H. destruct H as (_ & _ & H1 & H2 & _). split; assumption.
Defined.

End EndToEnd.

(* ===================================================================== *)
(** * The sitemap script: properties *)
(* ===================================================================== *)

Module SitemapFacts.
Import JS JSFacts Sitemap.

Lemma startsWith_prefix (s p : str) :
  startsWith s p = true <-> exists rest, s = p ++ rest.
Proof.
  revert s; induction p as [|c p IH]; intros s.
  - split; [intros _; exists s; reflexivity|]. intros _. destruct s; reflexivity.
  - destruct s as [|x s]; simpl.
    + split; [discriminate | intros (rest & E); discriminate].
    + rewrite andb_true_iff, N.eqb_eq, IH. split.
      * intros (-> & rest & ->). exists rest. reflexivity.
      * intros (rest & [= -> ->]). eauto.
Qed.

Lemma replace_first_unfold (s pat by_ : str) :
  replace_first s pat by_
  = if startsWith s pat then by_ ++ skipn (List.length pat) s
    else match s with
         | [] => []
         | c :: s' => c :: replace_first s' pat by_
         end.
Proof. destruct s; reflexivity. Qed.

(** An occurrence at the start is the first one. *)
Lemma replace_first_head (p rest by_ : str) :
  replace_first (p ++ rest) p by_ = by_ ++ rest.
Proof.
  rewrite replace_first_unfold, startsWith_app. f_equal.
  induction p; simpl; auto.
Qed.

(** No occurrence starts in a stretch that lacks the pattern's first code
    unit. *)
Lemma replace_first_skip (c : char16) (p s rest by_ : str) :
  ~ In c s ->
  replace_first (s ++ rest) (c :: p) by_
  = s ++ replace_first rest (c :: p) by_.
Proof.
  intros N. induction s as [|x s IH]; [reflexivity|].
  rewrite replace_first_unfold. simpl.
  destruct (N.eqb_spec x c) as [->|Nx].
  - destruct N. left. reflexivity.
  - simpl. f_equal. apply IH. intros H. apply N. right. exact H.
Qed.

Lemma replace_first_absent (c : char16) (p s by_ : str) :
  ~ In c s -> replace_first s (c :: p) by_ = s.
Proof.
  intros N. rewrite <- (app_nil_r s) at 1.
  rewrite (@replace_first_skip c p s [] by_ N). simpl. apply app_nil_r.
Qed.

(** The path of a page at the top of [pages]: the directory and the
    extension are gone. *)
Lemma path_top_level (name : str) :
  ~ In 46%N name -> ~ In 47%N name ->
  path (lit "pages/" ++ name ++ lit ".tsx")
  = replace_first (47%N :: name) (lit "/index") [].
Proof.
  intros Nd Ns. unfold path.
  replace (lit "pages/" ++ name ++ lit ".tsx")
    with (lit "pages" ++ ((47%N :: name) ++ lit ".tsx")) by reflexivity.
  rewrite replace_first_head. simpl ([] ++ _).
  match goal with
  | |- replace_first ?x _ _ = _ => assert (Step : x = 47%N :: name)
  end.
  { transitivity ((47%N :: name)
                  ++ replace_first (46%N :: lit "tsx") (46%N :: lit "tsx") []).
    - apply (@replace_first_skip 46%N (lit "tsx") (47%N :: name)
               (46%N :: lit "tsx") []).
      intros [F|F]; [discriminate | exact (Nd F)].
    - exact (app_nil_r (47%N :: name)). }
  rewrite Step. reflexivity.
Qed.

(** X16. For a page file directly under [pages], [pages/<name>.tsx] with
    no dot or slash in the name: if the name does not start with [index]
    the route is [/<name>] with priority 0.7; if it does, the route is
    what follows [index] in the name -- empty, with priority 1.0, for
    [pages/index.tsx] itself, and without a leading slash, with priority
    0.7, for a longer name. *)
Theorem top_level_page_route (name : str) :
  ~ In 46%N name -> ~ In 47%N name ->
  (startsWith name (lit "index") = false ->
     route (lit "pages/" ++ name ++ lit ".tsx") = 47%N :: name
     /\ priority (lit "pages/" ++ name ++ lit ".tsx") = lit "0.7")
  /\ (forall rest, name = lit "index" ++ rest ->
        route (lit "pages/" ++ name ++ lit ".tsx") = rest
        /\ (rest = [] ->
            priority (lit "pages/" ++ name ++ lit ".tsx") = lit "1.0")
        /\ (rest <> [] ->
            priority (lit "pages/" ++ name ++ lit ".tsx") = lit "0.7")).
Proof.
  intros Nd Ns.
  split.
  - intros S. unfold priority, route. rewrite (@path_top_level name Nd Ns).
    assert (P : replace_first (47%N :: name) (lit "/index") [] = 47%N :: name).
    { rewrite replace_first_unfold.
      change (startsWith (47%N :: name) (lit "/index"))
        with (startsWith name (lit "index")).
      rewrite S. f_equal.
      exact (@replace_first_absent 47%N (lit "index") name [] Ns). }
    rewrite P.
    assert (Q : str_eqb (47%N :: name) (lit "/index") = false).
    { destruct (str_eqb (47%N :: name) (lit "/index")) eqn:E; [|reflexivity].
      apply str_eqb_eq in E. injection E as ->. discriminate. }
    rewrite Q. split; reflexivity.
  - intros rest ->. unfold priority, route.
    rewrite (@path_top_level (lit "index" ++ rest) Nd Ns).
    assert (P : replace_first (47%N :: lit "index" ++ rest) (lit "/index") []
                = rest)
      by exact (@replace_first_head (lit "/index") rest []).
    rewrite P.
    assert (Nr : ~ In 47%N rest).
    { intros F. apply Ns. apply in_or_app. right. exact F. }
    assert (E : str_eqb rest (lit "/index") = false).
    { destruct (str_eqb rest (lit "/index")) eqn:E; [|reflexivity].
      apply str_eqb_eq in E. subst rest. destruct Nr. left. reflexivity. }
    rewrite E.
    split; [reflexivity|]. split.
    + intros ->. reflexivity.
    + intros Ne. destruct rest; [destruct Ne; reflexivity | reflexivity].
Qed.

Lemma top_level_page_route_witness :
  route (lit "pages/about.tsx") = lit "/about"
  /\ priority (lit "pages/about.tsx") = lit "0.7"
  /\ route (lit "pages/index.tsx") = []
  /\ priority (lit "pages/index.tsx") = lit "1.0"
  /\ route (lit "pages/indexes.tsx") = lit "es".
Proof.
  assert (D : forall name : string,
             forallb (fun c => negb (N.eqb c 46) && negb (N.eqb c 47)) (lit name)
             = true ->
             ~ In 46%N (lit name) /\ ~ In 47%N (lit name)).
  { intros name H. rewrite forallb_forall in H.
    split; intros F; apply H in F; discriminate. }
  destruct (D "about"%string eq_refl) as [A1 A2].
  destruct (D "index"%string eq_refl) as [I1 I2].
  destruct (D "indexes"%string eq_refl) as [E1 E2].
  destruct (proj1 (@top_level_page_route (lit "about") A1 A2) eq_refl) as [H1 H2].
  destruct (proj2 (@top_level_page_route (lit "index") I1 I2) [] eq_refl) as (H3 & H4 & _).
  destruct (proj2 (@top_level_page_route (lit "indexes") E1 E2) (lit "es") eq_refl) as (H5 & _).
  split; [exact H1|]. split; [exact H2|]. split; [exact H3|].
  split; [exact (H4 eq_refl) | exact H5].
Defined.

End SitemapFacts.

(* ===================================================================== *)
(** * The address pattern: properties *)
(* ===================================================================== *)

Module RegexMore.
Import JS Regex RegexFacts.

Lemma matches_Class (negated : bool) (ranges : list (char16 * char16))
    (s : str) :
  matches (Class negated ranges) s ->
  exists c, s = [c] /\ accepts negated ranges c = true.
Proof. intros H; inversion H; subst; eauto. Qed.

Lemma matches_chr (a : ascii) (s : str) :
  matches (chr a) s -> s = [N_of_ascii a].
Proof.
  intros H. apply matches_Class in H as (c & -> & A).
  unfold accepts, in_ranges in A. simpl in A.
  rewrite orb_false_r, andb_true_iff, !N.leb_le in A.
  f_equal. lia.
Qed.

Lemma matches_plus (a : re) (s : str) :
  matches (plus a) s ->
  exists s1 s2, s = s1 ++ s2 /\ matches a s1 /\ matches (Star a) s2.
Proof. apply matches_Cat. Qed.

(** X17. An address that passes the pattern has a non-empty local part,
    then [@], then a domain that contains a dot: [user@localhost] and
    [@example.com] do not pass. *)
Theorem accepted_address_shape (s : str) :
  test email_regex s = true ->
  exists l d, s = l ++ 64%N :: d /\ l <> [] /\ In 46%N d.
Proof.
  intros T. apply test_matches in T. unfold email_regex in T.
  apply matches_Cat in T as (l & s2 & -> & Hl & H2).
  apply matches_Cat in H2 as (at_ & d & -> & Hat & Hd).
  apply matches_chr in Hat as ->.
  exists l, d. split; [reflexivity|]. split.
  - apply matches_Alt in Hl as [Hl|Hl].
    + apply matches_Cat in Hl as (u & v & -> & Hu & _).
      apply matches_plus in Hu as (u1 & u2 & -> & Hu1 & _).
      apply matches_Class in Hu1 as (c & -> & _). discriminate.
    + apply matches_Cat in Hl as (u & v & -> & Hu & _).
      apply matches_Class in Hu as (c & -> & _). discriminate.
  - apply matches_Alt in Hd as [Hd|Hd].
    + apply matches_Cat in Hd as (a & r1 & -> & _ & Hd).
      apply matches_Cat in Hd as (o1 & r2 & -> & _ & Hd).
      apply matches_Cat in Hd as (dot1 & r3 & -> & Hdot & _).
      apply matches_chr in Hdot as ->.
      apply in_or_app; right. apply in_or_app; right. left. reflexivity.
    + apply matches_Cat in Hd as (labels & tld & -> & Hlabels & _).
      apply matches_plus in Hlabels as (first & more & -> & Hfirst & _).
      apply matches_Cat in Hfirst as (label & dot1 & -> & _ & Hdot).
      apply matches_chr in Hdot as ->.
      apply in_or_app; left. apply in_or_app; left.
      apply in_or_app; right. left. reflexivity.
Qed.

Lemma accepted_address_shape_witness :
  exists l d, lit "a@b.com" = l ++ 64%N :: d /\ l <> [] /\ In 46%N d.
Proof. exact (accepted_address_shape (lit "a@b.com") eq_refl). Defined.

End RegexMore.
